(** * pdf_chat_assistant: the retrieval core, embedded and verified

    The Python sources modelled here are
      - src/utils/chunking.py            (chunk_pdf_text)
      - src/utils/vector_store.py        (VectorStore)
      - src/services/embedding_service.py (EmbeddingService)
      - src/services/rag_service.py      (RAGService)
      - src/services/gemini_client.py    (GeminiClient)

    Python [int] is [Z]; [str] is [string]; [float] is IEEE binary64, taken
    from the standard library's [SpecFloat] with [prec = 53], [emax = 1024];
    a [dict] is an insertion-ordered association list with unique keys;
    a raised exception is the [Raised] outcome. *)

From Stdlib Require Import ZArith List String Ascii Bool Lia.
From Stdlib Require Import Decimal DecimalString DecimalN.
From Stdlib Require Import Floats.SpecFloat.
From Stdlib Require Import Sorting.Sorted Sorting.Permutation.
Import ListNotations.

Local Open Scope string_scope.
Local Open Scope Z_scope.

(* ================================================================= *)
(** * Python values and control *)

Module Py.

(** An instance of a subclass of [Exception]: its class name and [str(e)]. *)
Record exn : Type := PyExc { exc_type : string; exc_str : string }.

Definition ValueError (msg : string) : exn := PyExc "ValueError" msg.

(** What a call does: return, raise, or (for a [while] loop run on fuel)
    fail to finish within the fuel given. *)
Inductive outcome (A : Type) : Type :=
| Returned (a : A)
| Raised (e : exn)
| OutOfFuel.
Arguments Returned {A} a.
Arguments Raised {A} e.
Arguments OutOfFuel {A}.

Definition bind {A B} (m : outcome A) (k : A -> outcome B) : outcome B :=
  match m with
  | Returned a => k a
  | Raised e => Raised e
  | OutOfFuel => OutOfFuel
  end.

(** [len(s)] *)
Definition len (s : string) : Z := Z.of_nat (String.length s).

(** Index adjustment of a slice bound with step 1, as CPython's
    [PySlice_AdjustIndices]: a negative bound counts from the end, and the
    result is clamped to [0, n]. *)
Definition adjust_index (n i : Z) : Z :=
  if i <? 0 then Z.max 0 (i + n) else Z.min i n.

(** [l[start:stop]]; [None] is an omitted bound. *)
Definition list_slice {A} (l : list A) (start stop : option Z) : list A :=
  let n := Z.of_nat (List.length l) in
  let lo := match start with Some i => adjust_index n i | None => 0 end in
  let hi := match stop with Some i => adjust_index n i | None => n end in
  firstn (Z.to_nat (hi - lo)) (skipn (Z.to_nat lo) l).

(** [s[start:stop]] on a [str]. *)
Definition str_slice (s : string) (start stop : option Z) : string :=
  string_of_list_ascii (list_slice (list_ascii_of_string s) start stop).

(** [s.startswith(prefix)] *)
Definition startswith (s prefix : string) : bool := String.prefix prefix s.

(** [sep.join(parts)] *)
Definition join (sep : string) (parts : list string) : string :=
  String.concat sep parts.

(** [str(n)] for an [int]. *)
Definition str_of_int (n : Z) : string :=
  match n with
  | Zneg p => "-" ++ NilEmpty.string_of_uint (Pos.to_uint p)
  | _ => NilEmpty.string_of_uint (N.to_uint (Z.to_N n))
  end.

(** [enumerate(l, start)] *)
Fixpoint enumerate {A} (l : list A) (start : Z) : list (Z * A) :=
  match l with
  | [] => []
  | x :: l' => (start, x) :: enumerate l' (start + 1)
  end.

(** [c.isspace()] for a code point below 256: the ASCII controls
    [\t \n \v \f \r] and [\x1c .. \x1f], the space, NEL and the
    no-break space. *)
Definition isspace (c : ascii) : bool :=
  let n := nat_of_ascii c in
  ((9 <=? n) && (n <=? 13) || (28 <=? n) && (n <=? 32)
   || (n =? 133) || (n =? 160))%nat.

(** [s.lstrip()], [s.rstrip()], [s.strip()] *)
Fixpoint lstrip (s : string) : string :=
  match s with
  | EmptyString => EmptyString
  | String c s' => if isspace c then lstrip s' else s
  end.

Fixpoint rstrip (s : string) : string :=
  match s with
  | EmptyString => EmptyString
  | String c s' =>
      match rstrip s' with
      | EmptyString => if isspace c then EmptyString else String c EmptyString
      | r => String c r
      end
  end.

Definition strip (s : string) : string := rstrip (lstrip s).

(** [s.split()]: the maximal runs of non-whitespace characters.  [word] is
    the run read so far. *)
Fixpoint split_from (s word : string) : list string :=
  match s with
  | EmptyString =>
      match word with EmptyString => [] | _ => [word] end
  | String c s' =>
      if isspace c then
        match word with
        | EmptyString => split_from s' EmptyString
        | _ => word :: split_from s' EmptyString
        end
      else split_from s' (word ++ String c EmptyString)
  end.

Definition split (s : string) : list string := split_from s EmptyString.

(** [s.replace(old, new)]: every occurrence of [old], found from the left
    and not overlapping the one before, becomes [new].  [skip] counts the
    characters of an occurrence still to pass over. *)
Fixpoint replace_from (skip : nat) (s old new : string) : string :=
  match s with
  | EmptyString => EmptyString
  | String c s' =>
      match skip with
      | S k => replace_from k s' old new
      | O =>
          if String.prefix old s
          then new ++ replace_from (String.length old - 1) s' old new
          else String c (replace_from 0 s' old new)
      end
  end.

(** With an empty [old], [new] goes before every character and at the end. *)
Fixpoint interleave (s new : string) : string :=
  match s with
  | EmptyString => new
  | String c s' => new ++ String c (interleave s' new)
  end.

Definition replace (s old new : string) : string :=
  match old with
  | EmptyString => interleave s new
  | _ => replace_from 0 s old new
  end.

(** Every character of [s] satisfies [P]. *)
Fixpoint all_chars (P : ascii -> bool) (s : string) : bool :=
  match s with
  | EmptyString => true
  | String c s' => P c && all_chars P s'
  end.

Definition not_space (c : ascii) : bool := negb (isspace c).

(** A word: non-empty, without whitespace. *)
Definition is_word (w : string) : Prop :=
  w <> EmptyString /\ all_chars not_space w = true.

(** [s] with its whitespace characters removed. *)
Fixpoint without_whitespace (s : string) : string :=
  match s with
  | EmptyString => EmptyString
  | String c s' =>
      if isspace c then without_whitespace s' else String c (without_whitespace s')
  end.

(** Single-spaced text: the only whitespace is the space character, never
    first, never last, never twice in a row.  [after_space] tells whether
    the position read is the start or follows a space. *)
Fixpoint single_spaced_from (after_space : bool) (s : string) : bool :=
  match s with
  | EmptyString => negb after_space
  | String c s' =>
      if isspace c
      then Ascii.eqb c " " && negb after_space && single_spaced_from true s'
      else single_spaced_from false s'
  end.

Definition single_spaced (s : string) : bool :=
  match s with
  | EmptyString => true
  | _ => single_spaced_from true s
  end.

End Py.
Import Py.

Notation "x <- m ;; k" := (Py.bind m (fun x => k))
  (at level 61, m at next level, right associativity).

(* ================================================================= *)
(** * src/utils/chunking.py *)

Module Chunking.

(** [clean_text]: [" ".join(text.split())] *)
Definition clean_text (text : string) : string := join " " (split text).

(** The [while start < length] loop of [chunk_pdf_text], one iteration per
    unit of fuel.  [chunks] is the list built so far. *)
Fixpoint chunk_loop (fuel : nat) (pdf_text : string) (chunk_size overlap : Z)
         (length start : Z) (chunks : list string) : outcome (list string) :=
  match fuel with
  | O => OutOfFuel
  | S fuel' =>
      if start <? length then
        let end_ := Z.min (start + chunk_size) length in
        chunk_loop fuel' pdf_text chunk_size overlap length
                   (start + (chunk_size - overlap))
                   (chunks ++ [str_slice pdf_text (Some start) (Some end_)])%list
      else Returned chunks
  end.

Definition chunk_pdf_text_fuel (fuel : nat) (pdf_text : string)
           (chunk_size overlap : Z) : outcome (list string) :=
  if chunk_size <=? overlap then
    Raised (ValueError "chunk_size must be greater than overlap")
  else
    chunk_loop fuel pdf_text chunk_size overlap (len pdf_text) 0 [].

(** [chunk_pdf_text]: the loop advances by at least one character per
    iteration once the guard has passed, so [len(pdf_text) + 1] iterations
    are enough (lemma [chunk_pdf_text_fuel_enough] below). *)
Definition chunk_pdf_text (pdf_text : string) (chunk_size overlap : Z)
  : outcome (list string) :=
  chunk_pdf_text_fuel (S (String.length pdf_text)) pdf_text chunk_size overlap.

(** The spec's reading of "concatenation with overlap removed": the first
    chunk whole, then every later chunk without its first [overlap]
    characters. *)
Definition reassemble (overlap : Z) (chunks : list string) : string :=
  match chunks with
  | [] => ""
  | c :: rest =>
      c ++ String.concat "" (map (fun c' => str_slice c' (Some overlap) None) rest)
  end.

(** The window of the text that iteration [k] of the loop emits. *)
Definition window (pdf_text : string) (chunk_size overlap : Z) (k : nat) : string :=
  let start := Z.of_nat k * (chunk_size - overlap) in
  str_slice pdf_text (Some start) (Some (Z.min (start + chunk_size) (len pdf_text))).

(** Number of iterations: the least [n] with [n * step >= length]. *)
Definition n_windows (length step : Z) : nat :=
  Z.to_nat ((length + step - 1) / step).

(** A text of 250 characters, for the scenario of the spec. *)
Definition sample_text_250 : string :=
  String.concat "" (repeat "0123456789" 25).

End Chunking.

(* ================================================================= *)
(** * Python [float] and the NumPy operations the services use *)

Module Float64.

Definition prec : Z := 53.
Definition emax : Z := 1024.

(** A Python [float] / NumPy [float64]. *)
Definition float : Type := spec_float.

Definition add : float -> float -> float := SFadd prec emax.
Definition mul : float -> float -> float := SFmul prec emax.
Definition div : float -> float -> float := SFdiv prec emax.
Definition sqrt : float -> float := SFsqrt prec emax.

(** [x < y], [x > y], [x == y] *)
Definition ltb (x y : float) : bool := SFltb x y.
Definition gtb (x y : float) : bool := SFltb y x.
Definition eqb (x y : float) : bool := SFeqb x y.

Definition is_nan (x : float) : bool :=
  match x with S754_nan => true | _ => false end.


(** Truth value of a float: [x != 0] (a NaN is true). *)
Definition truthy (x : float) : bool :=
  match x with S754_zero _ => false | _ => true end.

(** The float nearest to an integer. *)
Definition of_Z (z : Z) : float := binary_normalize prec emax z 0 false.

(** The float a decimal literal [n / d] denotes, for [n] and [d] small
    enough to be floats themselves: one correctly rounded division. *)
Definition of_ratio (n d : Z) : float := div (of_Z n) (of_Z d).

Definition zero : float := S754_zero false.
Definition one : float := Eval vm_compute in of_Z 1.

(** Nearest integer to [n / d], ties to even ([0 <= n], [0 < d]). *)
Definition round_half_even_div (n d : Z) : Z :=
  let q := n / d in
  let r := n mod d in
  match 2 * r ?= d with
  | Lt => q
  | Gt => q + 1
  | Eq => if Z.even q then q else q + 1
  end.

(** [|x| * 100] rounded to an integer, for the finite float [m * 2^e]. *)
Definition hundredths (m : positive) (e : Z) : Z :=
  match e with
  | Zneg p => round_half_even_div (Zpos m * 100) (2 ^ Zpos p)
  | _ => Zpos m * 100 * 2 ^ e
  end.

Definition two_digits (n : Z) : string :=
  if n <? 10 then "0" ++ str_of_int n else str_of_int n.

(** [f"{x:.2f}"]: the decimal with two fractional digits nearest to the
    exact value of [x], ties to even, as CPython's correctly rounded
    float formatting. *)
Definition format_2f (x : float) : string :=
  match x with
  | S754_nan => "nan"
  | S754_infinity s => if s then "-inf" else "inf"
  | S754_zero s => if s then "-0.00" else "0.00"
  | S754_finite s m e =>
      let c := hundredths m e in
      (if s then "-" else "") ++ str_of_int (c / 100) ++ "." ++ two_digits (c mod 100)
  end.

(** A one-dimensional [np.ndarray] of [float64]. *)
Definition ndarray : Type := list float.

(** [np.zeros(n)] *)
Definition zeros (n : nat) : ndarray := repeat zero n.

(** [a.any()] *)
Definition any (a : ndarray) : bool := existsb truthy a.

(** The routine behind [np.dot] on two one-dimensional arrays of the same
    length.  NumPy hands the sum of products to the BLAS it was built
    with, which fixes the order of the additions and whether a product is
    rounded before it is added; the source does not choose either. *)
Definition dot_kernel : Type := ndarray -> ndarray -> float.

(** One such routine: the products rounded one by one and accumulated from
    the left. *)
Fixpoint dot_from (acc : float) (a b : ndarray) : float :=
  match a, b with
  | x :: a', y :: b' => dot_from (add acc (mul x y)) a' b'
  | _, _ => acc
  end.

Definition sequential_dot : dot_kernel := dot_from zero.

(** The [ValueError] of [np.dot] on one-dimensional arrays of lengths [n]
    and [m]: the message names the shapes in argument order. *)
Definition shape_error (n m : nat) : exn :=
  let sn := str_of_int (Z.of_nat n) in
  let sm := str_of_int (Z.of_nat m) in
  ValueError ("shapes (" ++ sn ++ ",) and (" ++ sm ++ ",) not aligned: "
              ++ sn ++ " (dim 0) != " ++ sm ++ " (dim 0)").

(** [np.dot(a, b)]: arrays of different lengths raise [ValueError]. *)
Definition dot (np_dot : dot_kernel) (a b : ndarray) : outcome float :=
  if Nat.eqb (List.length a) (List.length b) then Returned (np_dot a b)
  else Raised (shape_error (List.length a) (List.length b)).

(** [np.linalg.norm(a)]: [sqrt(a.dot(a))]. *)
Definition norm (np_dot : dot_kernel) (a : ndarray) : float := sqrt (np_dot a a).

End Float64.

(* ================================================================= *)
(** * src/utils/vector_store.py *)

Module VectorStore.
Import Float64.

(** The metadata dict of an entry; a key that is absent is [None]. *)
Record metadata : Type := mkMetadata {
  md_pdf_id : option string;
  md_chunk_index : option Z;
  md_text : option string
}.

(** [{}] *)
Definition empty_metadata : metadata := mkMetadata None None None.

Definition metadata_truthy (md : metadata) : bool :=
  match md with
  | mkMetadata None None None => false
  | _ => true
  end.

(** [{"vector": vector, "metadata": metadata}] *)
Record entry : Type := mkEntry {
  vector : list float;
  entry_metadata : metadata
}.

(** [Dict[str, Dict]]: bindings in insertion order. *)
Definition dict : Type := list (string * entry).

Definition dict_keys (d : dict) : list string := map fst d.

(** [d.get(k)] *)
Fixpoint dict_get (d : dict) (k : string) : option entry :=
  match d with
  | [] => None
  | (k', v) :: d' => if String.eqb k k' then Some v else dict_get d' k
  end.

(** [d[k] = v]: an existing key keeps its place, a new one goes last. *)
Fixpoint dict_set (d : dict) (k : string) (v : entry) : dict :=
  match d with
  | [] => [(k, v)]
  | (k', v') :: d' =>
      if String.eqb k k' then (k', v) :: d' else (k', v') :: dict_set d' k v
  end.

(** [del d[k]]: [KeyError] when [k] is absent. *)
Fixpoint dict_del (d : dict) (k : string) : outcome dict :=
  match d with
  | [] => Raised (PyExc "KeyError" k)
  | (k', v') :: d' =>
      if String.eqb k k' then Returned d'
      else d'' <- dict_del d' k ;; Returned ((k', v') :: d'')
  end.

(** The object's fields.  The pickle file at [storage_path] is written by
    [save_embeddings], which changes no field and swallows its errors. *)
Record t : Type := mkStore {
  storage_path : string;
  embeddings : dict
}.

Definition save_embeddings (self : t) : t := self.

Definition add_embedding (self : t) (key : string) (vec : list float)
           (md : option metadata) : t :=
  let md' := match md with
             | Some m => if metadata_truthy m then m else empty_metadata
             | None => empty_metadata
             end in
  save_embeddings
    (mkStore (storage_path self) (dict_set (embeddings self) key (mkEntry vec md'))).

Definition get_embedding_data (self : t) (key : string) : option entry :=
  dict_get (embeddings self) key.

Definition get_embedding_vector (self : t) (key : string) : option (list float) :=
  match dict_get (embeddings self) key with
  | Some entry => Some (vector entry)
  | None => None
  end.

Definition get_all_embeddings (self : t) : list string :=
  dict_keys (embeddings self).

Definition clear_embeddings (self : t) : t :=
  save_embeddings (mkStore (storage_path self) []).

(** The [for k in to_remove: del self.embeddings[k]] loop. *)
Fixpoint del_all (d : dict) (to_remove : list string) : outcome dict :=
  match to_remove with
  | [] => Returned d
  | k :: ks => d' <- dict_del d k ;; del_all d' ks
  end.

Definition remove_embeddings_by_prefix (self : t) (prefix : string) : outcome t :=
  let to_remove := filter (fun k => startswith k prefix) (dict_keys (embeddings self)) in
  d <- del_all (embeddings self) to_remove ;;
  Returned (save_embeddings (mkStore (storage_path self) d)).

End VectorStore.

(* ================================================================= *)
(** * src/services/embedding_service.py *)

Module EmbeddingService.
Import Float64.

(** [genai.embed_content(model, content, task_type)["embedding"]]: the
    hosted embedding call, which returns a vector or raises.  A value of
    this type is what the provider answers during one call of the service;
    another call may be given another one. *)
Definition embed_api : Type := string -> string -> string -> exn + list float.

(** The service object, with the NumPy build it runs on: [np_dot] is the
    routine that build uses for [np.dot] and [np.linalg.norm]. *)
Record t : Type := mkService {
  embedding_model : string;
  vector_store : VectorStore.t;
  np_dot : dot_kernel
}.

Definition with_store (self : t) (vs : VectorStore.t) : t :=
  mkService (embedding_model self) vs (np_dot self).

(** One retrieval result dict. *)
Record result : Type := mkResult {
  key : string;
  similarity : float;
  text : string;
  chunk_index : Z;
  pdf_id : string
}.

(** One iteration of the loop of [generate_embeddings]: the [try] with its
    zero-vector fallback. *)
Definition document_embedding (genai : embed_api) (self : t) (text : string) : ndarray :=
  match genai (embedding_model self) text "retrieval_document" with
  | inr v => v
  | inl _ => zeros 768
  end.

Definition generate_embeddings (genai : embed_api) (self : t)
           (texts : list string) : list ndarray :=
  map (document_embedding genai self) texts.

Definition generate_query_embedding (genai : embed_api) (self : t)
           (query : string) : ndarray :=
  match genai (embedding_model self) query "retrieval_query" with
  | inr v => v
  | inl _ => zeros 768
  end.

Definition _cosine_similarity (self : t) (a b : ndarray) : outcome float :=
  if negb (any a) || negb (any b) then Returned zero
  else
    let denom := mul (norm (np_dot self) a) (norm (np_dot self) b) in
    if eqb denom zero then Returned zero
    else d <- dot (np_dot self) a b ;; Returned (div d denom).


Definition clear_pdf_embeddings (self : t) (pdf_id : string) : outcome t :=
  vs <- VectorStore.remove_embeddings_by_prefix (vector_store self) (pdf_id ++ "_") ;;
  Returned (with_store self vs).

(** [f"{pdf_id}_chunk_{idx}"] *)
Definition chunk_key (pdf_id : string) (idx : Z) : string :=
  pdf_id ++ "_chunk_" ++ str_of_int idx.

Definition store_pdf_embeddings (genai : embed_api) (self : t)
           (pdf_id : string) (chunks : list string) : outcome t :=
  self1 <- clear_pdf_embeddings self pdf_id ;;
  Returned
    (fold_left
       (fun (s : t) (item : Z * (string * ndarray)) =>
          let '(idx, (chunk, vec)) := item in
          with_store s
            (VectorStore.add_embedding (vector_store s) (chunk_key pdf_id idx) vec
               (Some (VectorStore.mkMetadata (Some pdf_id) (Some idx) (Some chunk)))))
       (enumerate (combine chunks (generate_embeddings genai self1 chunks)) 0)
       self1).

(** The records of one document as the spec describes them: one per chunk,
    under the key [chunk_key pdf_id index], in chunk order. *)
Definition document_records (genai : embed_api) (self : t) (pdf_id : string)
           (chunks : list string) : VectorStore.dict :=
  map (fun ic : Z * string =>
         (chunk_key pdf_id (fst ic),
          VectorStore.mkEntry
            (document_embedding genai self (snd ic))
            (VectorStore.mkMetadata (Some pdf_id) (Some (fst ic)) (Some (snd ic)))))
      (enumerate chunks 0).

(** Truth value of the [Optional[str]] argument [pdf_id]. *)
Definition pdf_id_truthy (pdf_id : option string) : bool :=
  match pdf_id with
  | None => false
  | Some p => negb (String.eqb p "")
  end.

Definition scope_prefix (pdf_id : option string) : string :=
  match pdf_id with
  | None => "None_"
  | Some p => p ++ "_"
  end.

(** The scope test of [find_similar_chunks]: the keys the [continue] does
    not skip. *)
Definition passes_scope (pdf_id : option string) (k : string) : bool :=
  negb (pdf_id_truthy pdf_id && negb (startswith k (scope_prefix pdf_id))).

Definition get_or {A} (o : option A) (default : A) : A :=
  match o with Some a => a | None => default end.

(** The [for key in ...] loop of [find_similar_chunks]; [results] is the
    list appended to so far. *)
Fixpoint scan (self : t) (q_vec : ndarray) (pdf_id : option string)
         (keys : list string) (results : list result) : outcome (list result) :=
  match keys with
  | [] => Returned results
  | k :: keys' =>
      if pdf_id_truthy pdf_id && negb (startswith k (scope_prefix pdf_id)) then
        scan self q_vec pdf_id keys' results
      else
        match VectorStore.get_embedding_data (vector_store self) k with
        | None => scan self q_vec pdf_id keys' results
        | Some data =>
            sim <- _cosine_similarity self q_vec (VectorStore.vector data) ;;
            let md := VectorStore.entry_metadata data in
            scan self q_vec pdf_id keys'
                 (results ++ [mkResult k sim
                                (get_or (VectorStore.md_text md) "")
                                (get_or (VectorStore.md_chunk_index md) 0)
                                (get_or (VectorStore.md_pdf_id md) "")])%list
        end
  end.

(** [list.sort(key=..., reverse=True)] on float keys: elements are
    compared with [<] on their keys only, and elements that [<] does not
    separate keep their order.  On keys that [<] orders totally, that is
    when no key is NaN, every stable sort returns this list; with a NaN
    among the keys the order [list.sort] leaves depends on the comparisons
    it happens to make, and only the facts that hold of every permutation
    are read off this definition. *)
Fixpoint insert_desc {A} (sort_key : A -> float) (x : A) (l : list A) : list A :=
  match l with
  | [] => [x]
  | y :: l' =>
      if ltb (sort_key x) (sort_key y) then y :: insert_desc sort_key x l'
      else x :: l
  end.

Definition sort_desc {A} (sort_key : A -> float) (l : list A) : list A :=
  fold_right (insert_desc sort_key) [] l.

Definition find_similar_chunks (genai : embed_api) (self : t) (query : string)
           (pdf_id : option string) (top_k : Z) : outcome (list result) :=
  let q_vec := generate_query_embedding genai self query in
  results <- scan self q_vec pdf_id
                  (VectorStore.get_all_embeddings (vector_store self)) [] ;;
  Returned (list_slice (sort_desc similarity results) None (Some top_k)).

(** What a result dict holds, against the store it was read from: the
    record under its key, scored against the query vector, with the
    defaults of [md.get] for absent metadata. *)
Definition result_of_store (self : t) (q_vec : ndarray) (r : result) : Prop :=
  exists data : VectorStore.entry,
    VectorStore.get_embedding_data (vector_store self) (key r) = Some data
    /\ _cosine_similarity self q_vec (VectorStore.vector data) = Returned (similarity r)
    /\ text r = get_or (VectorStore.md_text (VectorStore.entry_metadata data)) ""
    /\ chunk_index r
       = get_or (VectorStore.md_chunk_index (VectorStore.entry_metadata data)) 0
    /\ pdf_id r = get_or (VectorStore.md_pdf_id (VectorStore.entry_metadata data)) "".

End EmbeddingService.

(* ================================================================= *)
(** * src/services/gemini_client.py *)

Module GeminiClient.

(** One chat-history dict; an absent key is [None]. *)
Record message : Type := mkMessage {
  role : option string;
  content : option string
}.

(** What [getattr(chunk, "text", "")] meets on a streamed chunk: a text,
    no such attribute, or a property that raises. *)
Inductive stream_chunk : Type :=
| ChunkText (txt : string)
| ChunkNoText
| ChunkTextRaises (e : exn).

(** [getattr(chunk, "text", "")]: the default stands in for an absent
    attribute and for a property that raises [AttributeError]; any other
    exception of the property propagates. *)
Definition getattr_text (c : stream_chunk) : exn + string :=
  match c with
  | ChunkText txt => inr txt
  | ChunkNoText => inr ""
  | ChunkTextRaises e =>
      if String.eqb (exc_type e) "AttributeError" then inr "" else inl e
  end.

(** The iterator [model.generate_content(prompt, stream=True)] returns:
    each [next] gives a chunk, stops, or raises. *)
Inductive response_iter : Type :=
| IterStop
| IterNext (c : stream_chunk) (rest : response_iter)
| IterRaise (e : exn).

(** The generation provider: the call itself returns an iterator or raises. *)
Definition generate_api : Type := string -> exn + response_iter.

Definition system_prompt : string :=
  "You are an assistant answering questions about an uploaded PDF. " ++
  "Base answers only on provided context. If unknown, say you lack the info.".

Definition nl : string := String (ascii_of_nat 10) "".

Definition render_message (m : message) : string :=
  EmbeddingService.get_or (role m) "user" ++ ": " ++
  EmbeddingService.get_or (content m) "".

(** [f"\nContext:\n{context}"] *)
Definition context_part (context : string) : string :=
  nl ++ "Context:" ++ nl ++ context.

Definition history_header : string := nl ++ "Recent conversation:".

(** [f"\nQuestion: {user_prompt}\nAnswer:"] *)
Definition question_part (user_prompt : string) : string :=
  nl ++ "Question: " ++ user_prompt ++ nl ++ "Answer:".

Definition _build_prompt (user_prompt context : string)
           (chat_history : option (list message)) : string :=
  let parts := [system_prompt] in
  let parts := if String.eqb context "" then parts
               else (parts ++ [context_part context])%list in
  let parts := match chat_history with
               | None | Some [] => parts
               | Some h =>
                   ((parts ++ [history_header])
                      ++ map render_message (list_slice h (Some (-5)) None))%list
               end in
  let parts := (parts ++ [question_part user_prompt])%list in
  join nl parts.

(** The [for chunk in ...] loop inside the [try]: the fragments yielded
    and the exception, if any, that ends the loop. *)
Fixpoint drain (it : response_iter) : list string * option exn :=
  match it with
  | IterStop => ([], None)
  | IterRaise e => ([], Some e)
  | IterNext c rest =>
      match getattr_text c with
      | inl e => ([], Some e)
      | inr txt =>
          if String.eqb txt "" then drain rest
          else let '(fs, r) := drain rest in (txt :: fs, r)
      end
  end.

(** [f"[Error] {e}"] *)
Definition error_fragment (e : exn) : string := "[Error] " ++ exc_str e.

(** The generator [stream_response], as the sequence of fragments it
    yields before it is exhausted.  Every [exn] is an [Exception], so the
    [except] clause catches each one and the generator never raises. *)
Definition stream_response (model : generate_api) (prompt context : string)
           (chat_history : option (list message)) : list string :=
  let full_prompt := _build_prompt prompt context chat_history in
  match model full_prompt with
  | inr it =>
      let '(fs, r) := drain it in
      match r with
      | None => fs
      | Some e => (fs ++ [error_fragment e])%list
      end
  | inl e => [error_fragment e]
  end.

(** The blocking call [model.generate_content(prompt)]: it raises, or
    returns a response whose [text] is read like a streamed chunk's. *)
Definition generate_blocking_api : Type := string -> exn + stream_chunk.

(** [f"Error generating response: {e}"] *)
Definition error_response (e : exn) : string :=
  "Error generating response: " ++ exc_str e.

Definition generate_response (model : generate_blocking_api) (prompt context : string)
           (chat_history : option (list message)) : string :=
  let full_prompt := _build_prompt prompt context chat_history in
  match model full_prompt with
  | inl e => error_response e
  | inr resp =>
      match getattr_text resp with
      | inl e => error_response e
      | inr txt =>
          match strip txt with
          | EmptyString => "No response generated."
          | answer => answer
          end
      end
  end.

End GeminiClient.

(* ================================================================= *)
(** * src/services/rag_service.py *)

Module RAGService.
Import Float64.

Record t : Type := mkRAG {
  embedding_service : EmbeddingService.t;
  gemini_client : GeminiClient.generate_api
}.

(** The literal [0.05]. *)
Definition threshold : float := Eval vm_compute in of_ratio 5 100.

(** [f"[Chunk {idx} sim={c['similarity']:.2f}]\n{c.get('text','')}"] *)
Definition render_chunk (idx : Z) (c : EmbeddingService.result) : string :=
  "[Chunk " ++ str_of_int idx ++ " sim=" ++
  format_2f (EmbeddingService.similarity c) ++ "]" ++ GeminiClient.nl ++
  EmbeddingService.text c.

(** The [for idx, c in enumerate(chunks, start=1)] loop. *)
Fixpoint format_loop (items : list (Z * EmbeddingService.result))
         (lines : list string) : list string :=
  match items with
  | [] => lines
  | (idx, c) :: items' =>
      if gtb (EmbeddingService.similarity c) threshold
      then format_loop items' (lines ++ [render_chunk idx c])%list
      else format_loop items' lines
  end.

Definition _format_context (chunks : list EmbeddingService.result) : string :=
  match chunks with
  | [] => ""
  | _ => join (GeminiClient.nl ++ GeminiClient.nl) (format_loop (enumerate chunks 1) [])
  end.







(** [stream_response]: retrieval and context assembly run at the call;
    what is returned is the generator of the client. *)
Definition stream_response (genai : EmbeddingService.embed_api) (self : t)
           (user_query pdf_id : string)
           (chat_history : option (list GeminiClient.message))
  : outcome (list string) :=
  chunks <- EmbeddingService.find_similar_chunks genai (embedding_service self)
              user_query (Some pdf_id) 3 ;;
  let context := _format_context chunks in
  Returned (GeminiClient.stream_response (gemini_client self) user_query context
              chat_history).

(** [get_response]: the blocking twin of [stream_response]; [model] is the
    client's model called without [stream=True]. *)
Definition get_response (genai : EmbeddingService.embed_api)
           (model : GeminiClient.generate_blocking_api) (self : t)
           (user_query pdf_id : string)
           (chat_history : option (list GeminiClient.message)) : outcome string :=
  chunks <- EmbeddingService.find_similar_chunks genai (embedding_service self)
              user_query (Some pdf_id) 3 ;;
  let context := _format_context chunks in
  Returned (GeminiClient.generate_response model user_query context chat_history).

Definition retrieve_relevant_chunks (genai : EmbeddingService.embed_api) (self : t)
           (user_prompt pdf_id : string) (top_k : Z)
  : outcome (list EmbeddingService.result) :=
  EmbeddingService.find_similar_chunks genai (embedding_service self)
    user_prompt (Some pdf_id) top_k.

(** The dict [generate_response_with_sources] returns. *)
Record answer : Type := mkAnswer {
  response : string;
  sources : list EmbeddingService.result;
  context_used : string
}.

(** [generate_response_with_sources]: the [try] covers retrieval, context
    assembly and generation; [except Exception] turns what they raise into
    an apology with no sources. *)
Definition generate_response_with_sources (genai : EmbeddingService.embed_api)
           (model : GeminiClient.generate_blocking_api) (self : t)
           (user_query pdf_id : string)
           (chat_history : option (list GeminiClient.message)) : answer :=
  match retrieve_relevant_chunks genai self user_query pdf_id 3 with
  | Returned relevant_chunks =>
      let context := _format_context relevant_chunks in
      mkAnswer (GeminiClient.generate_response model user_query context chat_history)
               relevant_chunks context
  | Raised e => mkAnswer ("Sorry, I encountered an error: " ++ exc_str e) [] ""
  | OutOfFuel => mkAnswer "" [] ""
  end.

End RAGService.

(* ================================================================= *)
(** * src/services/pdf_processor.py *)

Module PDFProcessor.

Record t : Type := mkProcessor {
  chunk_size : Z;
  overlap : Z
}.

(** [x or default] on an [Optional[int]]. *)
Definition int_or (x : option Z) (default : Z) : Z :=
  match x with
  | Some n => if n =? 0 then default else n
  | None => default
  end.

(** [__init__]; [config_chunk_size] and [config_overlap] are
    [Config.CHUNK_SIZE] and [Config.CHUNK_OVERLAP]. *)
Definition init (chunk_size overlap : option Z)
           (config_chunk_size config_overlap : Z) : t :=
  mkProcessor (int_or chunk_size config_chunk_size) (int_or overlap config_overlap).

(** What [page.extract_text()] does on one page: raise, return [None], or
    return a text. *)
Definition page : Type := exn + option string.

(** What [PdfReader(file_path)] does: raise, or give the pages. *)
Definition reader : Type := exn + list page.

(** The text of a page that reaches the [text.strip()] test: empty for a
    page that returns [None]; a page that raises is skipped before it. *)
Definition page_text (p : page) : string :=
  match p with
  | inr (Some t) => t
  | _ => EmptyString
  end.

(** [f"\n--- Page {idx+1} ---\n{text}"] *)
Definition page_block (idx : Z) (text : string) : string :=
  GeminiClient.nl ++ "--- Page " ++ str_of_int (idx + 1) ++ " ---" ++
  GeminiClient.nl ++ text.

(** The [for idx, page in enumerate(reader.pages)] loop of [_extract_text]. *)
Fixpoint extract_loop (pages : list (Z * page)) (out : list string) : list string :=
  match pages with
  | [] => out
  | (idx, p) :: pages' =>
      match p with
      | inl _ => extract_loop pages' out
      | inr extracted =>
          let text := match extracted with
                      | Some t => t
                      | None => EmptyString
                      end in
          match strip text with
          | EmptyString => extract_loop pages' out
          | _ => extract_loop pages' (out ++ [page_block idx text])%list
          end
      end
  end.

Definition _extract_text (file : reader) : string :=
  match file with
  | inl _ => EmptyString
  | inr pages => join EmptyString (extract_loop (enumerate pages 0) [])
  end.

Definition process_pdf (self : t) (file : reader) : outcome (list string) :=
  let raw := _extract_text file in
  match strip raw with
  | EmptyString => Returned []
  | _ =>
      let cleaned := Chunking.clean_text raw in
      chunks <- Chunking.chunk_pdf_text cleaned (chunk_size self) (overlap self) ;;
      Returned (filter (fun c => 50 <? len (strip c)) chunks)
  end.

End PDFProcessor.

(* ================================================================= *)
(** * src/app.py *)

Module App.

(** The document id [auto_process_pdf] derives from the uploaded file's
    name: [name.replace(".pdf","").replace(" ","_").replace(".","_")]. *)
Definition pdf_id_of_name (name : string) : string :=
  replace (replace (replace name ".pdf" "") " " "_") "." "_".

End App.

(* ================================================================= *)
(** * Sample stores and providers *)

Module Samples.
Import Float64.

(** An embedding provider that answers every call with the same vector. *)
Definition genai : EmbeddingService.embed_api := fun _ _ _ => inr [one; zero].

Definition entry_of (v : list float) (pdf_id : string) (idx : Z) (text : string)
  : VectorStore.entry :=
  VectorStore.mkEntry v (VectorStore.mkMetadata (Some pdf_id) (Some idx) (Some text)).

(** A service on a NumPy build whose [np.dot] sums from the left. *)
Definition service_of (d : VectorStore.dict) : EmbeddingService.t :=
  EmbeddingService.mkService "models/embedding-001"
    (VectorStore.mkStore "data/embeddings/pdf_embeddings.pkl" d)
    sequential_dot.

(** Two documents, ["a"] and ["b"]. *)
Definition two_documents : EmbeddingService.t :=
  service_of [ ("a_chunk_0", entry_of [one; zero] "a" 0 "alpha");
               ("b_chunk_0", entry_of [zero; one] "b" 0 "beta");
               ("a_chunk_1", entry_of [one; one] "a" 1 "gamma") ].

(** Two documents whose ids are ["doc"] and ["doc_2"]. *)
Definition doc_and_doc_2 : EmbeddingService.t :=
  service_of [ ("doc_chunk_0", entry_of [one; zero] "doc" 0 "first");
               ("doc_2_chunk_0", entry_of [one; one] "doc_2" 0 "second");
               ("doc_2_chunk_1", entry_of [zero; one] "doc_2" 1 "third") ].

(** Document ["a"] next to a record of ["b"] whose vector has another
    length than the query embedding. *)
Definition mixed_lengths : EmbeddingService.t :=
  service_of [ ("a_chunk_0", entry_of [one; zero] "a" 0 "alpha");
               ("b_chunk_0", entry_of [zero; one; one] "b" 0 "beta") ].

(** A document one of whose stored vectors holds an infinity. *)
Definition with_infinity : EmbeddingService.t :=
  service_of [ ("a_chunk_0", entry_of [one; one] "a" 0 "alpha");
               ("a_chunk_1", entry_of [S754_infinity false; zero] "a" 1 "beta");
               ("a_chunk_2", entry_of [one; zero] "a" 2 "gamma") ].

(** An embedding provider whose vectors have three components. *)
Definition genai_3d : EmbeddingService.embed_api := fun _ _ _ => inr [one; zero; zero].

(** An embedding provider whose every call raises. *)
Definition failing_genai : EmbeddingService.embed_api :=
  fun _ _ _ => inl (PyExc "DeadlineExceeded" "504").

(** An embedding provider that fails on documents and answers queries. *)
Definition query_only_genai : EmbeddingService.embed_api :=
  fun _ _ task_type =>
    if String.eqb task_type "retrieval_query" then inr [one; zero]
    else inl (PyExc "DeadlineExceeded" "504").

(** A blocking generation provider that answers every prompt. *)
Definition blocking_model : GeminiClient.generate_blocking_api :=
  fun _ => inr (GeminiClient.ChunkText "An answer.").

(** A generation provider whose call raises. *)
Definition failing_model : GeminiClient.generate_api :=
  fun _ => inl (PyExc "ResourceExhausted" "429 quota exceeded").

End Samples.

(* ================================================================= *)
(** * Slices of lists and strings *)

Section ListSlices.
Context {A : Type}.
Implicit Types l : list A.

Lemma firstn_clamp l (n : nat) :
  firstn n l = firstn (Nat.min n (List.length l)) l.
Proof.
  destruct (Nat.le_ge_cases n (List.length l)) as [H | H].
  - now rewrite Nat.min_l.
  - rewrite Nat.min_r by assumption.
    now rewrite !firstn_all2 by lia.
Qed.

Lemma list_slice_nonneg l (a b : Z) :
  0 <= a -> 0 <= b ->
  list_slice l (Some a) (Some b)
  = firstn (Z.to_nat b - Z.to_nat a) (skipn (Z.to_nat a) l).
Proof.
  intros Ha Hb. unfold list_slice, adjust_index.
  destruct (Z.ltb_spec a 0); [lia |].
  destruct (Z.ltb_spec b 0); [lia |].
  set (n := List.length l).
  destruct (Z.le_gt_cases a (Z.of_nat n)) as [Han | Han].
  - rewrite (Z.min_l a) by assumption.
    rewrite (firstn_clamp (skipn (Z.to_nat a) l) (Z.to_nat b - Z.to_nat a)).
    rewrite (firstn_clamp (skipn (Z.to_nat a) l) (Z.to_nat (Z.min b (Z.of_nat n) - a))).
    rewrite length_skipn. fold n. f_equal. lia.
  - rewrite !(skipn_all2 l) by (fold n; lia).
    now rewrite !firstn_nil.
Qed.

Lemma list_slice_from l (a : Z) :
  0 <= a -> list_slice l (Some a) None = skipn (Z.to_nat a) l.
Proof.
  intros Ha. unfold list_slice, adjust_index.
  destruct (Z.ltb_spec a 0); [lia |].
  set (n := List.length l).
  destruct (Z.le_gt_cases a (Z.of_nat n)) as [Han | Han].
  - rewrite (Z.min_l a) by assumption.
    apply firstn_all2. rewrite length_skipn. fold n. lia.
  - rewrite Z.min_r by lia. rewrite Z.sub_diag. simpl.
    symmetry. apply skipn_all2. fold n. lia.
Qed.

Lemma list_slice_upto l (b : Z) :
  0 <= b -> list_slice l None (Some b) = firstn (Z.to_nat b) l.
Proof.
  intros Hb. unfold list_slice, adjust_index.
  destruct (Z.ltb_spec b 0); [lia |].
  rewrite Z.sub_0_r. simpl skipn.
  rewrite (firstn_clamp l (Z.to_nat b)), (firstn_clamp l (Z.to_nat (Z.min _ _))).
  f_equal. lia.
Qed.

(** A negative upper bound drops that many elements from the end. *)
Lemma list_slice_upto_neg l (b : Z) :
  b < 0 -> list_slice l None (Some b) = firstn (List.length l - Z.to_nat (- b)) l.
Proof.
  intros Hb. unfold list_slice, adjust_index.
  destruct (Z.ltb_spec b 0); [| lia].
  rewrite Z.sub_0_r. simpl skipn. f_equal. lia.
Qed.

(** Adjacent slices concatenate. *)
Lemma list_slice_app l (a b c : Z) :
  0 <= a <= b -> b <= c ->
  (list_slice l (Some a) (Some b) ++ list_slice l (Some b) (Some c))%list
  = list_slice l (Some a) (Some c).
Proof.
  intros Hab Hbc. rewrite !list_slice_nonneg by lia.
  replace (skipn (Z.to_nat b) l)
    with (skipn (Z.to_nat b - Z.to_nat a) (skipn (Z.to_nat a) l))
    by (rewrite skipn_skipn; f_equal; lia).
  replace (Z.to_nat c - Z.to_nat a)%nat
    with ((Z.to_nat b - Z.to_nat a) + (Z.to_nat c - Z.to_nat b))%nat by lia.
  generalize (skipn (Z.to_nat a) l) as r.
  generalize (Z.to_nat b - Z.to_nat a)%nat as n.
  generalize (Z.to_nat c - Z.to_nat b)%nat as m.
  intros m n. induction n as [| n IH]; intros r; simpl.
  - reflexivity.
  - destruct r as [| x r]; simpl.
    + now rewrite firstn_nil.
    + now rewrite IH.
Qed.

(** Dropping a prefix of a slice is a slice. *)
Lemma list_slice_drop l (a b d : Z) :
  0 <= a -> 0 <= b -> 0 <= d ->
  list_slice (list_slice l (Some a) (Some b)) (Some d) None
  = list_slice l (Some (a + d)) (Some b).
Proof.
  intros Ha Hb Hd. rewrite list_slice_from by assumption.
  rewrite !list_slice_nonneg by lia.
  rewrite skipn_firstn_comm, skipn_skipn.
  f_equal; [lia | f_equal; lia].
Qed.

(** A start beyond the end is the end. *)
Lemma list_slice_clamp_start l (a b : Z) :
  0 <= a -> 0 <= b ->
  list_slice l (Some a) (Some b)
  = list_slice l (Some (Z.min a (Z.of_nat (List.length l)))) (Some b).
Proof.
  intros Ha Hb. rewrite !list_slice_nonneg by lia.
  destruct (Z.le_gt_cases a (Z.of_nat (List.length l))) as [H | H].
  - now rewrite Z.min_l.
  - rewrite Z.min_r by lia. rewrite Nat2Z.id.
    rewrite !skipn_all2 by lia. now rewrite !firstn_nil.
Qed.

Lemma list_slice_empty l (a : Z) :
  0 <= a -> list_slice l (Some a) (Some a) = [].
Proof.
  intros Ha. rewrite list_slice_nonneg by assumption.
  now rewrite Nat.sub_diag.
Qed.

Lemma list_slice_all l :
  list_slice l (Some 0) (Some (Z.of_nat (List.length l))) = l.
Proof.
  rewrite list_slice_nonneg by lia. simpl.
  rewrite Nat2Z.id, Nat.sub_0_r. apply firstn_all.
Qed.

Lemma length_list_slice l (a b : Z) :
  0 <= a <= b -> b <= Z.of_nat (List.length l) ->
  Z.of_nat (List.length (list_slice l (Some a) (Some b))) = b - a.
Proof.
  intros Hab Hb. rewrite list_slice_nonneg by lia.
  rewrite length_firstn, length_skipn. lia.
Qed.
End ListSlices.

Section StringSlices.

Lemma string_of_list_ascii_app (l1 l2 : list ascii) :
  string_of_list_ascii (l1 ++ l2)%list
  = string_of_list_ascii l1 ++ string_of_list_ascii l2.
Proof.
  induction l1 as [| c l1 IH]; simpl; [reflexivity | now rewrite IH].
Qed.

Lemma length_list_ascii_of_string (s : string) :
  List.length (list_ascii_of_string s) = String.length s.
Proof.
  induction s as [| c s IH]; simpl; [reflexivity | now rewrite IH].
Qed.

Lemma length_string_of_list_ascii (l : list ascii) :
  String.length (string_of_list_ascii l) = List.length l.
Proof.
  induction l as [| c l IH]; simpl; [reflexivity | now rewrite IH].
Qed.

Lemma append_empty_r (s : string) : s ++ "" = s.
Proof.
  induction s as [| c s IH]; simpl; [reflexivity | now rewrite IH].
Qed.

Lemma append_assoc (s1 s2 s3 : string) : (s1 ++ s2) ++ s3 = s1 ++ (s2 ++ s3).
Proof.
  induction s1 as [| c s1 IH]; simpl; [reflexivity | now rewrite IH].
Qed.

Lemma concat_empty_cons (x : string) (xs : list string) :
  String.concat "" (x :: xs) = x ++ String.concat "" xs.
Proof.
  destruct xs as [| y ys]; simpl; [now rewrite append_empty_r | reflexivity].
Qed.

Lemma str_slice_app (s : string) (a b c : Z) :
  0 <= a <= b -> b <= c ->
  str_slice s (Some a) (Some b) ++ str_slice s (Some b) (Some c)
  = str_slice s (Some a) (Some c).
Proof.
  intros Hab Hbc. unfold str_slice.
  now rewrite <- string_of_list_ascii_app, list_slice_app.
Qed.

Lemma str_slice_drop (s : string) (a b d : Z) :
  0 <= a -> 0 <= b -> 0 <= d ->
  str_slice (str_slice s (Some a) (Some b)) (Some d) None
  = str_slice s (Some (a + d)) (Some b).
Proof.
  intros Ha Hb Hd. unfold str_slice.
  now rewrite list_ascii_of_string_of_list_ascii, list_slice_drop.
Qed.

Lemma str_slice_clamp_start (s : string) (a b : Z) :
  0 <= a -> 0 <= b ->
  str_slice s (Some a) (Some b) = str_slice s (Some (Z.min a (len s))) (Some b).
Proof.
  intros Ha Hb. unfold str_slice, len.
  rewrite <- length_list_ascii_of_string.
  now rewrite <- list_slice_clamp_start.
Qed.

Lemma str_slice_empty (s : string) (a : Z) :
  0 <= a -> str_slice s (Some a) (Some a) = "".
Proof.
  intros Ha. unfold str_slice. now rewrite list_slice_empty.
Qed.

Lemma str_slice_all (s : string) : str_slice s (Some 0) (Some (len s)) = s.
Proof.
  unfold str_slice, len. rewrite <- length_list_ascii_of_string.
  rewrite list_slice_all. apply string_of_list_ascii_of_string.
Qed.

Lemma len_str_slice (s : string) (a b : Z) :
  0 <= a <= b -> b <= len s -> len (str_slice s (Some a) (Some b)) = b - a.
Proof.
  intros Hab Hb. unfold str_slice, len in *.
  rewrite length_string_of_list_ascii.
  apply length_list_slice; [assumption |].
  now rewrite length_list_ascii_of_string.
Qed.

End StringSlices.

(* ================================================================= *)
(** * The chunker *)

Section ChunkerProofs.
Import Chunking.

Lemma n_windows_nonpos (L step : Z) :
  0 < step -> L <= 0 -> n_windows L step = 0%nat.
Proof.
  intros Hs HL. unfold n_windows.
  assert ((L + step - 1) / step <= 0); [| lia].
  apply Z.lt_succ_r, Z.div_lt_upper_bound; lia.
Qed.

Lemma n_windows_pos (L step : Z) :
  0 < step -> 0 < L -> n_windows L step = S (n_windows (L - step) step).
Proof.
  intros Hs HL. unfold n_windows.
  replace (L + step - 1) with ((L - step + step - 1) + 1 * step) by lia.
  rewrite Z.div_add by lia.
  assert (0 <= (L - step + step - 1) / step) by (apply Z.div_pos; lia).
  lia.
Qed.

(** [n_windows] is the first index whose window starts at or past the end. *)
Lemma n_windows_covers (L step : Z) :
  0 < step -> 0 <= L -> L <= Z.of_nat (n_windows L step) * step.
Proof.
  intros Hs HL. unfold n_windows.
  assert (0 <= (L + step - 1) / step) by (apply Z.div_pos; lia).
  rewrite Z2Nat.id by assumption.
  pose proof (Z.div_mod (L + step - 1) step ltac:(lia)) as E.
  pose proof (Z.mod_pos_bound (L + step - 1) step Hs). lia.
Qed.

Lemma n_windows_inside (L step : Z) (k : nat) :
  0 < step -> (k < n_windows L step)%nat -> Z.of_nat k * step < L.
Proof.
  intros Hs Hk. unfold n_windows in Hk.
  pose proof (Z.div_mod (L + step - 1) step ltac:(lia)) as E.
  pose proof (Z.mod_pos_bound (L + step - 1) step Hs).
  assert (Z.of_nat k + 1 <= (L + step - 1) / step) by lia.
  assert ((Z.of_nat k + 1) * step <= (L + step - 1) / step * step)
    by (apply Z.mul_le_mono_nonneg_r; lia).
  lia.
Qed.

Variables (pdf_text : string) (chunk_size overlap : Z).
Let step := chunk_size - overlap.
Let L := len pdf_text.

Lemma len_nonneg : 0 <= L.
Proof. unfold L, len. lia. Qed.

(** The loop, started at the [k]-th window with enough fuel, appends the
    remaining windows and returns. *)
Lemma chunk_loop_spec :
  0 < step ->
  forall (fuel k : nat) (acc : list string),
    Z.max 0 (L - Z.of_nat k * step) < Z.of_nat fuel ->
    chunk_loop fuel pdf_text chunk_size overlap L (Z.of_nat k * step) acc
    = Returned (acc ++ map (window pdf_text chunk_size overlap)
                           (seq k (n_windows (L - Z.of_nat k * step) step)))%list.
Proof.
  intros Hs. induction fuel as [| fuel IH]; intros k acc Hf; [lia |].
  cbn [chunk_loop].
  destruct (Z.ltb_spec (Z.of_nat k * step) L) as [Hlt | Hge].
  - rewrite n_windows_pos by lia.
    replace (Z.of_nat k * step + (chunk_size - overlap))
      with (Z.of_nat (S k) * step) by (unfold step; lia).
    rewrite IH by lia.
    cbn [seq map]. rewrite <- app_assoc. cbn [app].
    replace (L - Z.of_nat k * step - step) with (L - Z.of_nat (S k) * step) by lia.
    reflexivity.
  - rewrite n_windows_nonpos by lia. cbn [seq map]. now rewrite app_nil_r.
Qed.

Lemma chunk_pdf_text_fuel_spec (fuel : nat) :
  overlap < chunk_size -> (String.length pdf_text < fuel)%nat ->
  chunk_pdf_text_fuel fuel pdf_text chunk_size overlap
  = Returned (map (window pdf_text chunk_size overlap) (seq 0 (n_windows L step))).
Proof.
  intros Hlt Hf. unfold chunk_pdf_text_fuel.
  destruct (Z.leb_spec chunk_size overlap); [lia |].
  pose proof (chunk_loop_spec ltac:(unfold step; lia) fuel 0%nat []) as E.
  cbn [Z.of_nat app] in E. rewrite Z.mul_0_l, Z.sub_0_r in E.
  apply E. unfold L, len. lia.
Qed.

(** The fuel [chunk_pdf_text] runs on is enough: the call returns. *)
Lemma chunk_pdf_text_spec :
  overlap < chunk_size ->
  chunk_pdf_text pdf_text chunk_size overlap
  = Returned (map (window pdf_text chunk_size overlap) (seq 0 (n_windows L step))).
Proof.
  intros Hlt. apply chunk_pdf_text_fuel_spec; [assumption | lia].
Qed.

(** More fuel changes nothing. *)
Lemma chunk_pdf_text_fuel_enough (fuel : nat) :
  (String.length pdf_text < fuel)%nat ->
  chunk_pdf_text_fuel fuel pdf_text chunk_size overlap
  = chunk_pdf_text pdf_text chunk_size overlap.
Proof.
  intros Hf. destruct (Z.le_gt_cases chunk_size overlap) as [H | H].
  - unfold chunk_pdf_text, chunk_pdf_text_fuel.
    now destruct (Z.leb_spec chunk_size overlap); [| lia].
  - now rewrite chunk_pdf_text_spec, chunk_pdf_text_fuel_spec by lia.
Qed.

(** End offset of the [j]-th window. *)
Let E (j : nat) : Z := Z.min (Z.of_nat j * step + chunk_size) L.

Lemma window_end_mono (i j : nat) : 0 < step -> (i <= j)%nat -> E i <= E j.
Proof.
  intros Hs Hij. unfold E.
  assert (Z.of_nat i * step <= Z.of_nat j * step)
    by (apply Z.mul_le_mono_nonneg_r; lia).
  lia.
Qed.

Lemma window_end_nonneg (j : nat) : 0 < step -> 0 < chunk_size -> 0 <= E j.
Proof.
  intros Hs Hc. unfold E. pose proof len_nonneg.
  assert (0 <= Z.of_nat j * step) by (apply Z.mul_nonneg_nonneg; lia).
  lia.
Qed.

(** A later window without its first [overlap] characters is the stretch
    of text between the previous window's end and its own. *)
Lemma window_drop_overlap (j : nat) :
  0 <= overlap < chunk_size ->
  str_slice (window pdf_text chunk_size overlap (S j)) (Some overlap) None
  = str_slice pdf_text (Some (E j)) (Some (E (S j))).
Proof.
  intros Ho. unfold window. fold step. fold L.
  assert (0 < step) by (unfold step; lia).
  assert (0 <= Z.of_nat (S j) * step) by (apply Z.mul_nonneg_nonneg; lia).
  pose proof (window_end_nonneg (S j) ltac:(lia) ltac:(lia)) as HE.
  unfold E in HE.
  rewrite str_slice_drop by lia.
  rewrite str_slice_clamp_start by lia.
  unfold E. fold L. do 2 f_equal. f_equal. unfold step. lia.
Qed.

Lemma tail_windows_reassemble (n j : nat) :
  0 <= overlap < chunk_size ->
  String.concat ""
    (map (fun c' => str_slice c' (Some overlap) None)
         (map (window pdf_text chunk_size overlap) (seq (S j) n)))
  = str_slice pdf_text (Some (E j)) (Some (E (j + n))).
Proof.
  intros Ho. assert (Hs : 0 < step) by (unfold step; lia).
  revert j. induction n as [| n IH]; intros j.
  - rewrite Nat.add_0_r. cbn [seq map String.concat].
    symmetry. apply str_slice_empty. apply window_end_nonneg; lia.
  - cbn [seq map]. rewrite concat_empty_cons, IH, window_drop_overlap by assumption.
    replace (j + S n)%nat with (S j + n)%nat by lia.
    apply str_slice_app.
    + split; [apply window_end_nonneg; lia | apply window_end_mono; [assumption | lia]].
    + apply window_end_mono; [assumption | lia].
Qed.

(** Coverage: the chunks, overlap removed, are the text. *)
Lemma windows_reassemble :
  0 <= overlap < chunk_size ->
  reassemble overlap
    (map (window pdf_text chunk_size overlap) (seq 0 (n_windows L step)))
  = pdf_text.
Proof.
  intros Ho. assert (Hs : 0 < step) by (unfold step; lia).
  pose proof len_nonneg as HL.
  pose proof (n_windows_covers L step Hs HL) as Hcov.
  destruct (n_windows L step) as [| m] eqn:En.
  - cbn [seq map reassemble].
    assert (L = 0) by lia. unfold L, len in *.
    destruct pdf_text; [reflexivity | simpl in *; lia].
  - cbn [seq map reassemble]. rewrite tail_windows_reassemble by assumption.
    unfold window. fold step. fold L. cbn [Z.of_nat]. rewrite Z.mul_0_l, Z.add_0_l.
    change (Z.min chunk_size L) with (Z.min (0 + chunk_size) L).
    replace (0 + chunk_size) with (Z.of_nat 0 * step + chunk_size) by lia.
    fold (E 0). rewrite str_slice_app.
    + replace (E (0 + m)) with L; [apply str_slice_all |].
      unfold E. cbn [Nat.add]. unfold step in *. lia.
    + split; [lia | apply window_end_nonneg; lia].
    + apply window_end_mono; [assumption | lia].
Qed.

(** Length of a window that starts inside the text. *)
Lemma len_window (k : nat) :
  0 < step -> 0 <= chunk_size -> Z.of_nat k * step <= L ->
  len (window pdf_text chunk_size overlap k)
  = Z.min (Z.of_nat k * step + chunk_size) L - Z.of_nat k * step.
Proof.
  intros Hs Hc Hk. unfold window. fold step. fold L.
  assert (0 <= Z.of_nat k * step) by (apply Z.mul_nonneg_nonneg; lia).
  apply len_str_slice; fold L; lia.
Qed.

End ChunkerProofs.

Lemma nth_map_seq {A} (f : nat -> A) (n k : nat) (d : A) :
  (k < n)%nat -> nth k (map f (seq 0 n)) d = f k.
Proof.
  intros Hk. rewrite (nth_indep _ d (f 0%nat)) by now rewrite length_map, length_seq.
  rewrite map_nth. now rewrite seq_nth.
Qed.

(** C7. Whenever [chunk_size <= overlap], [chunk_pdf_text] raises the
    [ValueError] of its guard, for every text (the empty one included).  The
    guard comes before the loop: the same holds on any amount of fuel, zero
    included, so no iteration runs, no chunk is produced and no step of size
    [chunk_size - overlap <= 0] is ever taken. *)
Theorem chunk_pdf_text_invalid_configuration
        (pdf_text : string) (chunk_size overlap : Z) :
  chunk_size <= overlap ->
  Chunking.chunk_pdf_text pdf_text chunk_size overlap
  = Raised (ValueError "chunk_size must be greater than overlap")
  /\ forall fuel : nat,
      Chunking.chunk_pdf_text_fuel fuel pdf_text chunk_size overlap
      = Raised (ValueError "chunk_size must be greater than overlap").
Proof.
  intros Hle. unfold Chunking.chunk_pdf_text, Chunking.chunk_pdf_text_fuel.
  destruct (Z.leb_spec chunk_size overlap); [| lia].
  split; [reflexivity | intros; reflexivity].
Qed.

Lemma chunk_pdf_text_invalid_configuration_witness :
  Chunking.chunk_pdf_text "" 4 4
  = Raised (ValueError "chunk_size must be greater than overlap")
  /\ forall fuel : nat,
      Chunking.chunk_pdf_text_fuel fuel "" 4 4
      = Raised (ValueError "chunk_size must be greater than overlap").
Proof.
  apply (chunk_pdf_text_invalid_configuration "" 4 4). lia.
Defined.

(** C2, as the code has it.  For a text of length exactly 250,
    [chunk_pdf_text(text, 100, 20)] returns four chunks, the slices
    [text[0:100]], [text[80:180]], [text[160:250]] and [text[240:250]], of
    lengths 100, 100, 90 and 10: the loop runs once more at offset 240, which
    is still below 250, so the last two chunks are shorter than the chunk
    size. *)
Theorem chunk_pdf_text_250_100_20 (pdf_text : string) :
  String.length pdf_text = 250%nat ->
  Chunking.chunk_pdf_text pdf_text 100 20
  = Returned [ str_slice pdf_text (Some 0) (Some 100);
               str_slice pdf_text (Some 80) (Some 180);
               str_slice pdf_text (Some 160) (Some 250);
               str_slice pdf_text (Some 240) (Some 250) ]
  /\ map len [ str_slice pdf_text (Some 0) (Some 100);
               str_slice pdf_text (Some 80) (Some 180);
               str_slice pdf_text (Some 160) (Some 250);
               str_slice pdf_text (Some 240) (Some 250) ]
     = [100; 100; 90; 10].
Proof.
  intros Hlen.
  assert (HL : len pdf_text = 250) by (unfold len; rewrite Hlen; reflexivity).
  split.
  - rewrite chunk_pdf_text_spec by lia.
    rewrite HL. unfold Chunking.window. rewrite HL. reflexivity.
  - cbn [map]. rewrite !len_str_slice by lia. reflexivity.
Qed.

Lemma chunk_pdf_text_250_100_20_witness :
  Chunking.chunk_pdf_text Chunking.sample_text_250 100 20
  = Returned [ str_slice Chunking.sample_text_250 (Some 0) (Some 100);
               str_slice Chunking.sample_text_250 (Some 80) (Some 180);
               str_slice Chunking.sample_text_250 (Some 160) (Some 250);
               str_slice Chunking.sample_text_250 (Some 240) (Some 250) ]
  /\ map len [ str_slice Chunking.sample_text_250 (Some 0) (Some 100);
               str_slice Chunking.sample_text_250 (Some 80) (Some 180);
               str_slice Chunking.sample_text_250 (Some 160) (Some 250);
               str_slice Chunking.sample_text_250 (Some 240) (Some 250) ]
     = [100; 100; 90; 10].
Proof.
  apply (chunk_pdf_text_250_100_20 Chunking.sample_text_250). reflexivity.
Defined.

(** C2 as the spec states it fails: on a text of 250 characters the call
    does not return the three chunks of the scenario, it returns four. *)
Lemma chunk_pdf_text_250_three_chunks_counterexample :
  String.length Chunking.sample_text_250 = 250%nat
  /\ (exists c0 c1 c2 c3,
         Chunking.chunk_pdf_text Chunking.sample_text_250 100 20
         = Returned [c0; c1; c2; c3])
  /\ Chunking.chunk_pdf_text Chunking.sample_text_250 100 20
     <> Returned [ str_slice Chunking.sample_text_250 (Some 0) (Some 100);
                   str_slice Chunking.sample_text_250 (Some 80) (Some 180);
                   str_slice Chunking.sample_text_250 (Some 160) (Some 250) ].
Proof.
  split; [reflexivity |]. split.
  - do 4 eexists. vm_compute. reflexivity.
  - vm_compute. discriminate.
Qed.

(** C1, as the code has it.  For [chunk_size > overlap > 0] and every text,
    [chunk_pdf_text] returns; its chunks, the first whole and each later one
    without its first [overlap] characters, concatenate to the text exactly;
    the [k]-th chunk is the window [text[k*step : k*step + chunk_size]] with
    [step = chunk_size - overlap], cut at the end of the text: it never has
    more than [chunk_size] characters and has exactly [chunk_size] whenever
    the window ends inside the text. *)
Theorem chunk_pdf_text_covers (pdf_text : string) (chunk_size overlap : Z) :
  0 < overlap < chunk_size ->
  exists chunks : list string,
    Chunking.chunk_pdf_text pdf_text chunk_size overlap = Returned chunks
    /\ Chunking.reassemble overlap chunks = pdf_text
    /\ forall k : nat,
        (k < List.length chunks)%nat ->
        nth k chunks "" = Chunking.window pdf_text chunk_size overlap k
        /\ len (nth k chunks "") <= chunk_size
        /\ (Z.of_nat k * (chunk_size - overlap) + chunk_size <= len pdf_text ->
            len (nth k chunks "") = chunk_size).
Proof.
  intros Ho.
  eexists. split; [apply chunk_pdf_text_spec; lia |].
  split; [apply windows_reassemble; lia |].
  intros k Hk. rewrite length_map, length_seq in Hk.
  rewrite nth_map_seq by assumption.
  pose proof (n_windows_inside (len pdf_text) (chunk_size - overlap) k ltac:(lia) Hk) as Hin.
  rewrite len_window by lia.
  split; [reflexivity |]. split; lia.
Qed.

Lemma chunk_pdf_text_covers_witness :
  exists chunks : list string,
    Chunking.chunk_pdf_text "abcdefghij" 4 1 = Returned chunks
    /\ Chunking.reassemble 1 chunks = "abcdefghij"
    /\ forall k : nat,
        (k < List.length chunks)%nat ->
        nth k chunks "" = Chunking.window "abcdefghij" 4 1 k
        /\ len (nth k chunks "") <= 4
        /\ (Z.of_nat k * (4 - 1) + 4 <= len "abcdefghij" ->
            len (nth k chunks "") = 4).
Proof.
  apply (chunk_pdf_text_covers "abcdefghij" 4 1). lia.
Defined.

(** C1 as the spec states it fails in its second half: with
    [chunk_size = 4] and [overlap = 2] the text ["abc"] gives the chunks
    ["abc"] and ["c"], and the first, which is not the last, has 3
    characters, not 4. *)
Lemma chunk_pdf_text_full_length_counterexample :
  Chunking.chunk_pdf_text "abc" 4 2 = Returned ["abc"; "c"]
  /\ ~ (forall (pdf_text : string) (chunk_size overlap : Z),
           0 < overlap < chunk_size ->
           exists chunks : list string,
             Chunking.chunk_pdf_text pdf_text chunk_size overlap = Returned chunks
             /\ Chunking.reassemble overlap chunks = pdf_text
             /\ forall k : nat,
                 (S k < List.length chunks)%nat ->
                 len (nth k chunks "") = chunk_size).
Proof.
  split; [reflexivity |].
  intros H. destruct (H "abc" 4 2 ltac:(lia)) as (chunks & Hc & _ & Hlen).
  vm_compute in Hc. injection Hc as <-.
  specialize (Hlen 0%nat ltac:(simpl; lia)). vm_compute in Hlen. discriminate.
Qed.

(* ================================================================= *)
(** * Keys: prefixes and decimal indexes *)

Section Keys.

Lemma startswith_iff (s prefix : string) :
  startswith s prefix = true <-> exists rest, s = prefix ++ rest.
Proof.
  unfold startswith. revert s.
  induction prefix as [| a p IH]; intros s.
  - split; [intros _; now exists s | intros _; now destruct s].
  - destruct s as [| b s]; cbn [String.prefix].
    + split; [discriminate | intros [r Hr]; discriminate].
    + destruct (ascii_dec a b) as [-> | Hne].
      * rewrite IH. split; intros [r Hr]; exists r; cbn in *; congruence.
      * split; [discriminate | intros [r Hr]; cbn in Hr; congruence].
Qed.

Lemma startswith_app (p rest : string) : startswith (p ++ rest) p = true.
Proof. apply startswith_iff. now exists rest. Qed.

Lemma startswith_trans (s p q : string) :
  startswith s q = true -> startswith q p = true -> startswith s p = true.
Proof.
  rewrite !startswith_iff. intros [r1 ->] [r2 ->].
  exists (r2 ++ r1). apply append_assoc.
Qed.

Lemma append_inj_l (p s1 s2 : string) : p ++ s1 = p ++ s2 -> s1 = s2.
Proof.
  induction p as [| a p IH]; cbn; intros H; [assumption |].
  injection H as H. now apply IH.
Qed.

Lemma str_of_int_inj (n m : Z) :
  0 <= n -> 0 <= m -> str_of_int n = str_of_int m -> n = m.
Proof.
  intros Hn Hm H.
  assert (E : forall z, 0 <= z ->
                   str_of_int z = NilEmpty.string_of_uint (N.to_uint (Z.to_N z)))
    by (intros [| p | p] Hz; [reflexivity | reflexivity | lia]).
  rewrite !E in H by assumption.
  apply (f_equal NilEmpty.uint_of_string) in H.
  rewrite !NilEmpty.usu in H. injection H as H.
  apply DecimalN.Unsigned.to_uint_inj in H. lia.
Qed.

Lemma chunk_key_inj (pdf_id : string) (i j : Z) :
  0 <= i -> 0 <= j ->
  EmbeddingService.chunk_key pdf_id i = EmbeddingService.chunk_key pdf_id j -> i = j.
Proof.
  intros Hi Hj H. unfold EmbeddingService.chunk_key in H.
  apply append_inj_l, append_inj_l in H. now apply str_of_int_inj.
Qed.

Lemma chunk_key_startswith (pdf_id : string) (i : Z) :
  startswith (EmbeddingService.chunk_key pdf_id i) (pdf_id ++ "_") = true.
Proof.
  apply startswith_iff. exists ("chunk_" ++ str_of_int i).
  unfold EmbeddingService.chunk_key. now rewrite append_assoc.
Qed.

End Keys.

(* ================================================================= *)
(** * The vector store *)

Section StoreProofs.
Import VectorStore.

Lemma del_all_skip (k : string) (v : entry) (ks : list string) :
  ~ In k ks ->
  forall d : dict,
    del_all ((k, v) :: d) ks = (d' <- del_all d ks ;; Returned ((k, v) :: d')).
Proof.
  induction ks as [| a ks IH]; intros Hn d; [reflexivity |].
  cbn [del_all dict_del].
  assert (Hak : String.eqb a k = false)
    by (apply String.eqb_neq; intros ->; apply Hn; now left).
  rewrite Hak.
  destruct (dict_del d a) as [d'' | e |]; cbn [bind]; [| reflexivity | reflexivity].
  apply IH. intros Hin. apply Hn. now right.
Qed.

(** Deleting the keys that satisfy [P], one [del] each, never raises and
    leaves the other bindings in place. *)
Lemma del_all_filter (P : string -> bool) (d : dict) :
  del_all d (filter P (dict_keys d))
  = Returned (filter (fun kv => negb (P (fst kv))) d).
Proof.
  induction d as [| [k v] d IH]; [reflexivity |].
  cbn [dict_keys map fst filter]. fold (dict_keys d).
  destruct (P k) eqn:EP; cbn [negb].
  - cbn [del_all dict_del]. rewrite String.eqb_refl. cbn [bind]. exact IH.
  - rewrite del_all_skip.
    + rewrite IH. reflexivity.
    + intros Hin. apply filter_In in Hin. destruct Hin as [_ Hin]. congruence.
Qed.

Lemma remove_embeddings_by_prefix_spec (self : t) (prefix : string) :
  remove_embeddings_by_prefix self prefix
  = Returned (mkStore (storage_path self)
                (filter (fun kv => negb (startswith (fst kv) prefix)) (embeddings self))).
Proof.
  unfold remove_embeddings_by_prefix.
  rewrite (del_all_filter (fun k => startswith k prefix)). reflexivity.
Qed.

Lemma dict_set_fresh (d : dict) (k : string) (v : entry) :
  ~ In k (dict_keys d) -> dict_set d k v = (d ++ [(k, v)])%list.
Proof.
  induction d as [| [k' v'] d IH]; intros Hn; [reflexivity |].
  cbn [dict_set app].
  assert (Hk : String.eqb k k' = false)
    by (apply String.eqb_neq; intros ->; apply Hn; now left).
  rewrite Hk, IH; [reflexivity |]. intros Hin. apply Hn. now right.
Qed.

Lemma dict_get_app (d1 d2 : dict) (k : string) :
  dict_get (d1 ++ d2)%list k
  = match dict_get d1 k with Some v => Some v | None => dict_get d2 k end.
Proof.
  induction d1 as [| [k' v'] d1 IH]; [reflexivity |].
  rewrite <- app_comm_cons. cbn [dict_get]. rewrite IH.
  now destruct (String.eqb k k').
Qed.

Lemma dict_get_absent (d : dict) (k : string) :
  ~ In k (dict_keys d) -> dict_get d k = None.
Proof.
  induction d as [| [k' v'] d IH]; intros Hn; [reflexivity |].
  cbn [dict_get].
  assert (Hk : String.eqb k k' = false)
    by (apply String.eqb_neq; intros ->; apply Hn; now left).
  rewrite Hk. apply IH. intros Hin. apply Hn. now right.
Qed.

Lemma dict_get_filter_out (P : string -> bool) (d : dict) (k : string) :
  P k = true -> dict_get (filter (fun kv => negb (P (fst kv))) d) k = None.
Proof.
  intros HP. apply dict_get_absent. unfold dict_keys.
  intros Hin. apply in_map_iff in Hin. destruct Hin as ([k' v'] & <- & Hin).
  apply filter_In in Hin. destruct Hin as [_ Hin]. cbn in HP, Hin.
  rewrite HP in Hin. discriminate.
Qed.

End StoreProofs.

(* ================================================================= *)
(** * Ingestion *)

Section IngestProofs.
Import Float64 VectorStore EmbeddingService.

Lemma enumerate_fst {A} (l : list A) (i0 : Z) :
  map fst (enumerate l i0) = map (fun j => i0 + Z.of_nat j) (seq 0 (List.length l)).
Proof.
  revert i0. induction l as [| x l IH]; intros i0; [reflexivity |].
  cbn [enumerate map fst List.length seq]. f_equal; [lia |].
  rewrite IH, <- seq_shift, map_map. apply map_ext. intros j. lia.
Qed.

Lemma enumerate_nth_error {A} (l : list A) (i0 : Z) (j : nat) (x : A) :
  nth_error l j = Some x ->
  nth_error (enumerate l i0) j = Some (i0 + Z.of_nat j, x).
Proof.
  revert i0 j. induction l as [| y l IH]; intros i0 [| j] H; try discriminate.
  - cbn in *. injection H as ->. do 2 f_equal. lia.
  - cbn [enumerate nth_error] in *. rewrite (IH _ _ H). do 2 f_equal. lia.
Qed.

Lemma enumerate_combine_map {A B C} (f : A -> B) (g : Z -> A -> B -> C)
      (l : list A) (i0 : Z) :
  map (fun item : Z * (A * B) => g (fst item) (fst (snd item)) (snd (snd item)))
      (enumerate (combine l (map f l)) i0)
  = map (fun ic : Z * A => g (fst ic) (snd ic) (f (snd ic))) (enumerate l i0).
Proof.
  revert i0. induction l as [| x l IH]; intros i0; [reflexivity |].
  cbn [map combine enumerate fst snd]. now rewrite IH.
Qed.

Variables (genai : embed_api) (pdf_id : string).

(** The record one iteration of the loop of [store_pdf_embeddings] writes. *)
Let record_of (item : Z * (string * ndarray)) : string * entry :=
  (chunk_key pdf_id (fst item),
   mkEntry (snd (snd item))
           (mkMetadata (Some pdf_id) (Some (fst item)) (Some (fst (snd item))))).

(** On a store none of whose keys is a chunk key of index [i0] or more, the
    loop appends one record per item, in order. *)
Lemma store_loop_spec (items : list (string * ndarray)) :
  forall (i0 : Z) (s : EmbeddingService.t),
    0 <= i0 ->
    (forall idx, i0 <= idx ->
                 ~ In (chunk_key pdf_id idx) (dict_keys (embeddings (vector_store s)))) ->
    fold_left
      (fun (s : EmbeddingService.t) (item : Z * (string * ndarray)) =>
         let '(idx, (chunk, vec)) := item in
         with_store s
           (add_embedding (vector_store s) (chunk_key pdf_id idx) vec
              (Some (mkMetadata (Some pdf_id) (Some idx) (Some chunk)))))
      (enumerate items i0) s
    = with_store s
        (mkStore (storage_path (vector_store s))
           (embeddings (vector_store s) ++ map record_of (enumerate items i0))%list).
Proof.
  induction items as [| [chunk vec] items IH]; intros i0 s Hi Hfresh.
  - cbn [enumerate fold_left map]. rewrite app_nil_r.
    destruct s as [m [p d]]. reflexivity.
  - cbn [enumerate fold_left].
    assert (Hset : add_embedding (vector_store s) (chunk_key pdf_id i0) vec
                     (Some (mkMetadata (Some pdf_id) (Some i0) (Some chunk)))
                   = mkStore (storage_path (vector_store s))
                       (embeddings (vector_store s)
                        ++ [record_of (i0, (chunk, vec))])%list).
    { unfold add_embedding. cbn [metadata_truthy save_embeddings].
      rewrite dict_set_fresh by (apply Hfresh; lia). reflexivity. }
    rewrite IH.
    + rewrite Hset. unfold with_store.
      cbn [vector_store storage_path embeddings embedding_model map].
      rewrite <- app_assoc. reflexivity.
    + lia.
    + intros idx Hidx. rewrite Hset. cbn [with_store vector_store embeddings].
      unfold dict_keys. rewrite map_app, in_app_iff. cbn [map fst In record_of].
      intros [Hin | [Heq | []]].
      * apply (Hfresh idx); [lia | exact Hin].
      * apply chunk_key_inj in Heq; lia.
Qed.

Lemma filter_none {A} (P : A -> bool) (l : list A) :
  (forall x, In x l -> P x = false) -> filter P l = [].
Proof.
  induction l as [| x l IH]; intros H; [reflexivity |].
  cbn [filter]. rewrite (H x) by now left. apply IH. intros y Hy. apply H. now right.
Qed.

Lemma filter_every {A} (P : A -> bool) (l : list A) :
  (forall x, In x l -> P x = true) -> filter P l = l.
Proof.
  induction l as [| x l IH]; intros H; [reflexivity |].
  cbn [filter]. rewrite (H x) by now left. f_equal. apply IH. intros y Hy. apply H. now right.
Qed.

Lemma keys_of_filtered (P : string -> bool) (d : dict) (k : string) :
  In k (dict_keys (filter (fun kv => negb (P (fst kv))) d)) -> P k = false.
Proof.
  unfold dict_keys. intros Hin. apply in_map_iff in Hin.
  destruct Hin as ([k' v'] & <- & Hin). apply filter_In in Hin.
  destruct Hin as [_ Hin]. cbn in *. now destruct (P k').
Qed.

Lemma document_records_keys (self : EmbeddingService.t) (chunks : list string) :
  dict_keys (document_records genai self pdf_id chunks)
  = map (fun i : nat => chunk_key pdf_id (Z.of_nat i)) (seq 0 (List.length chunks)).
Proof.
  unfold dict_keys, document_records. rewrite map_map. cbn [fst].
  rewrite <- (map_map fst (chunk_key pdf_id)), enumerate_fst, map_map.
  reflexivity.
Qed.

Lemma chunk_keys_NoDup (n : nat) :
  NoDup (map (fun i : nat => chunk_key pdf_id (Z.of_nat i)) (seq 0 n)).
Proof.
  apply Finite.Injective_map_NoDup; [| apply seq_NoDup].
  intros i j H. apply chunk_key_inj in H; lia.
Qed.

Lemma records_get_from (self : EmbeddingService.t) (chunks : list string) :
  forall (i0 : Z) (i : nat) (chunk : string),
    0 <= i0 ->
    nth_error chunks i = Some chunk ->
    dict_get
      (map (fun ic : Z * string =>
              (chunk_key pdf_id (fst ic),
               mkEntry (document_embedding genai self (snd ic))
                       (mkMetadata (Some pdf_id) (Some (fst ic)) (Some (snd ic)))))
           (enumerate chunks i0))
      (chunk_key pdf_id (i0 + Z.of_nat i))
    = Some (mkEntry (document_embedding genai self chunk)
              (mkMetadata (Some pdf_id) (Some (i0 + Z.of_nat i)) (Some chunk))).
Proof.
  induction chunks as [| c chunks IH]; intros i0 [| i] chunk Hi0 H; try discriminate.
  - cbn in H. injection H as ->. cbn [enumerate map dict_get fst snd].
    replace (i0 + Z.of_nat 0) with i0 by lia. now rewrite String.eqb_refl.
  - cbn [nth_error] in H. cbn [enumerate map dict_get fst snd].
    destruct (String.eqb_spec (chunk_key pdf_id (i0 + Z.of_nat (S i)))
                              (chunk_key pdf_id i0)) as [Heq | _].
    + apply chunk_key_inj in Heq; lia.
    + replace (i0 + Z.of_nat (S i)) with ((i0 + 1) + Z.of_nat i) by lia.
      apply IH; [lia | assumption].
Qed.

Lemma document_records_get (self : EmbeddingService.t) (chunks : list string)
      (i : nat) (chunk : string) :
  nth_error chunks i = Some chunk ->
  dict_get (document_records genai self pdf_id chunks) (chunk_key pdf_id (Z.of_nat i))
  = Some (mkEntry (document_embedding genai self chunk)
            (mkMetadata (Some pdf_id) (Some (Z.of_nat i)) (Some chunk))).
Proof.
  intros H. unfold document_records.
  exact (records_get_from self chunks 0 i chunk ltac:(lia) H).
Qed.

(** What [store_pdf_embeddings] leaves in the store. *)
Lemma store_pdf_embeddings_spec (self : EmbeddingService.t) (chunks : list string) :
  store_pdf_embeddings genai self pdf_id chunks
  = Returned
      (with_store self
         (mkStore (storage_path (vector_store self))
            (filter (fun kv => negb (startswith (fst kv) (pdf_id ++ "_")))
                    (embeddings (vector_store self))
             ++ document_records genai self pdf_id chunks)%list)).
Proof.
  unfold store_pdf_embeddings, clear_pdf_embeddings.
  rewrite remove_embeddings_by_prefix_spec. cbn [bind].
  rewrite store_loop_spec.
  - unfold with_store. cbn [vector_store storage_path embeddings embedding_model].
    do 3 f_equal. unfold generate_embeddings, document_records.
    rewrite <- (enumerate_combine_map
                  (document_embedding genai self)
                  (fun idx chunk vec =>
                     (chunk_key pdf_id idx,
                      mkEntry vec (mkMetadata (Some pdf_id) (Some idx) (Some chunk))))).
    reflexivity.
  - lia.
  - intros idx _ Hin. cbn [with_store vector_store embeddings] in Hin.
    apply (keys_of_filtered (fun k => startswith k (pdf_id ++ "_"))) in Hin.
    now rewrite chunk_key_startswith in Hin.
Qed.

End IngestProofs.

Lemma document_records_prefixed (genai : EmbeddingService.embed_api)
      (self : EmbeddingService.t) (pdf_id : string) (chunks : list string)
      (kv : string * VectorStore.entry) :
  In kv (EmbeddingService.document_records genai self pdf_id chunks) ->
  startswith (fst kv) (pdf_id ++ "_") = true.
Proof.
  unfold EmbeddingService.document_records. intros Hin.
  apply in_map_iff in Hin. destruct Hin as (ic & <- & _).
  apply chunk_key_startswith.
Qed.

(** C4. For every [pdf_id] and chunk list, [store_pdf_embeddings] returns,
    and in the store it leaves the records whose key starts with
    ["{pdf_id}_"] are exactly the new ones: one per chunk, in chunk order,
    under the pairwise distinct keys ["{pdf_id}_chunk_{index}"], each holding
    the chunk's embedding and metadata.  Whatever was stored under that
    prefix before is gone, and records outside the prefix are untouched. *)
Theorem store_pdf_embeddings_replaces
        (genai : EmbeddingService.embed_api) (self : EmbeddingService.t)
        (pdf_id : string) (chunks : list string) :
  exists self' : EmbeddingService.t,
    EmbeddingService.store_pdf_embeddings genai self pdf_id chunks = Returned self'
    /\ filter (fun kv => startswith (fst kv) (pdf_id ++ "_"))
              (VectorStore.embeddings (EmbeddingService.vector_store self'))
       = EmbeddingService.document_records genai self pdf_id chunks
    /\ filter (fun k => startswith k (pdf_id ++ "_"))
              (VectorStore.get_all_embeddings (EmbeddingService.vector_store self'))
       = map (fun i : nat => EmbeddingService.chunk_key pdf_id (Z.of_nat i))
             (seq 0 (List.length chunks))
    /\ NoDup (map (fun i : nat => EmbeddingService.chunk_key pdf_id (Z.of_nat i))
                  (seq 0 (List.length chunks)))
    /\ (forall (i : nat) (chunk : string),
           nth_error chunks i = Some chunk ->
           VectorStore.get_embedding_data (EmbeddingService.vector_store self')
             (EmbeddingService.chunk_key pdf_id (Z.of_nat i))
           = Some (VectorStore.mkEntry
                     (EmbeddingService.document_embedding genai self chunk)
                     (VectorStore.mkMetadata (Some pdf_id) (Some (Z.of_nat i))
                        (Some chunk))))
    /\ filter (fun kv => negb (startswith (fst kv) (pdf_id ++ "_")))
              (VectorStore.embeddings (EmbeddingService.vector_store self'))
       = filter (fun kv => negb (startswith (fst kv) (pdf_id ++ "_")))
                (VectorStore.embeddings (EmbeddingService.vector_store self)).
Proof.
  eexists. split; [apply store_pdf_embeddings_spec |].
  unfold VectorStore.get_all_embeddings, VectorStore.get_embedding_data.
  cbn [EmbeddingService.with_store EmbeddingService.vector_store VectorStore.embeddings].
  set (old := VectorStore.embeddings (EmbeddingService.vector_store self)).
  set (new := EmbeddingService.document_records genai self pdf_id chunks).
  set (kept := filter (fun kv : string * VectorStore.entry =>
                         negb (startswith (fst kv) (pdf_id ++ "_"))) old).
  assert (Hkept : forall kv, In kv kept -> startswith (fst kv) (pdf_id ++ "_") = false).
  { intros kv Hin. apply filter_In in Hin. destruct Hin as [_ Hin].
    now destruct (startswith (fst kv) (pdf_id ++ "_")). }
  assert (Hnew : forall kv, In kv new -> startswith (fst kv) (pdf_id ++ "_") = true)
    by (intros kv Hin; exact (document_records_prefixed _ _ _ _ kv Hin)).
  repeat split.
  - rewrite filter_app, (filter_none _ kept) by exact Hkept.
    cbn [app]. now apply filter_every.
  - unfold VectorStore.dict_keys. rewrite map_app, filter_app.
    rewrite filter_none.
    + cbn [app]. rewrite filter_every.
      * apply (document_records_keys genai pdf_id self chunks).
      * intros k Hin. apply in_map_iff in Hin. destruct Hin as (kv & <- & Hin).
        now apply Hnew.
    + intros k Hin. apply in_map_iff in Hin. destruct Hin as (kv & <- & Hin).
      now apply Hkept.
  - apply chunk_keys_NoDup.
  - intros i chunk Hnth. rewrite dict_get_app.
    unfold kept.
    rewrite (dict_get_filter_out (fun k => startswith k (pdf_id ++ "_")))
      by apply chunk_key_startswith.
    now apply document_records_get.
  - rewrite filter_app.
    rewrite (filter_none _ new) by (intros kv Hin; now rewrite (Hnew kv Hin)).
    rewrite app_nil_r. apply filter_every.
    intros kv Hin. apply filter_In in Hin. tauto.
Qed.

(* ================================================================= *)
(** * Binary64: order and arithmetic facts *)

(** Case analysis on every comparison of exponents and mantissas in the
    goal, closed by linear arithmetic. *)
Ltac order_cases :=
  repeat match goal with
         | |- context [Z.compare ?a ?b] => destruct (Z.compare_spec a b)
         | |- context [Pos.compare_cont Eq ?a ?b] =>
             change (Pos.compare_cont Eq a b) with (Pos.compare a b);
             destruct (Pos.compare_spec a b)
         end;
  cbn; intros; try reflexivity; try discriminate; try lia.

Section FloatOrder.
Import Float64.

Lemma ltb_irrefl (x : float) : ltb x x = false.
Proof.
  unfold ltb, SFltb, SFcompare.
  destruct x as [[] | [] | | [] m e]; try reflexivity;
    rewrite ?Z.compare_refl; change (Pos.compare_cont Eq m m) with (Pos.compare m m); rewrite Pos.compare_refl; reflexivity.
Qed.

Lemma ltb_asym (x y : float) : ltb x y = true -> ltb y x = false.
Proof.
  unfold ltb, SFltb, SFcompare.
  destruct x as [[] | [] | | [] mx ex], y as [[] | [] | | [] my ey];
    try reflexivity; try discriminate;
    order_cases.
Qed.

Lemma ltb_false_trans (x y z : float) :
  is_nan x = false -> is_nan y = false -> is_nan z = false ->
  ltb x y = false -> ltb y z = false -> ltb x z = false.
Proof.
  unfold ltb, SFltb, SFcompare, is_nan.
  destruct x as [[] | [] | | [] mx ex], y as [[] | [] | | [] my ey],
           z as [[] | [] | | [] mz ez];
    try reflexivity; try discriminate;
    intros _ _ _; order_cases.
Qed.

(** Without NaN, "not less" is "greater or equal". *)
Lemma ltb_false_leb (x y : float) :
  is_nan x = false -> is_nan y = false -> ltb x y = false -> SFleb y x = true.
Proof.
  unfold ltb, SFltb, SFleb, SFcompare, is_nan.
  destruct x as [[] | [] | | [] mx ex], y as [[] | [] | | [] my ey];
    try reflexivity; try discriminate; intros _ _; order_cases.
Qed.


(** Two floats equal to a third are not separated by [<]. *)
Lemma eqb_eqb_not_ltb (x y v : float) :
  eqb x v = true -> eqb y v = true -> ltb x y = false.
Proof.
  unfold eqb, ltb, SFeqb, SFltb, SFcompare.
  destruct x as [[] | [] | | [] mx ex], y as [[] | [] | | [] my ey],
           v as [[] | [] | | [] mv ev];
    try reflexivity; try discriminate; order_cases.
Qed.

End FloatOrder.

Section FloatArith.
Import Float64.

Lemma mul_comm (x y : float) : mul x y = mul y x.
Proof.
  unfold mul, SFmul.
  destruct x as [sx | sx | | sx mx ex], y as [sy | sy | | sy my ey];
    try reflexivity; rewrite (xorb_comm sx sy); try reflexivity.
  change (PosDef.Pos.mul mx my) with (Pos.mul mx my).
  change (PosDef.Pos.mul my mx) with (Pos.mul my mx).
  now rewrite (Pos.mul_comm mx my), (Z.add_comm ex ey).
Qed.

Lemma dot_from_comm (a b : ndarray) (acc : float) :
  dot_from acc a b = dot_from acc b a.
Proof.
  revert b acc. induction a as [| x a IH]; intros [| y b] acc; try reflexivity.
  cbn [dot_from]. now rewrite (mul_comm x y), IH.
Qed.

(** Summing from the left is symmetric in the two arrays. *)
Lemma sequential_dot_comm (a b : ndarray) : sequential_dot a b = sequential_dot b a.
Proof. apply dot_from_comm. Qed.



End FloatArith.


(* ================================================================= *)
(** * Cosine similarity *)




(* ================================================================= *)
(** * Sorting by similarity *)

Section SortProofs.
Import Float64 EmbeddingService.
Context {A : Type} (sort_key : A -> float).

Lemma insert_desc_perm (x : A) (l : list A) :
  Permutation (insert_desc sort_key x l) (x :: l).
Proof.
  induction l as [| y l IH]; cbn [insert_desc]; [reflexivity |].
  destruct (ltb (sort_key x) (sort_key y)); [| reflexivity].
  rewrite IH. apply perm_swap.
Qed.

Lemma sort_desc_perm (l : list A) : Permutation (sort_desc sort_key l) l.
Proof.
  induction l as [| x l IH]; cbn [sort_desc fold_right]; [reflexivity |].
  fold (sort_desc sort_key l). rewrite insert_desc_perm. now constructor.
Qed.

Lemma insert_desc_length (x : A) (l : list A) :
  List.length (insert_desc sort_key x l) = S (List.length l).
Proof. apply (Permutation_length (insert_desc_perm x l)). Qed.

(** "Not less than any later element", the order [<] leaves after a
    descending sort. *)
Let not_below (x y : A) : Prop := ltb (sort_key x) (sort_key y) = false.
Let no_nan (x : A) : Prop := is_nan (sort_key x) = false.

Lemma insert_desc_sorted (x : A) (l : list A) :
  no_nan x -> Forall no_nan l ->
  StronglySorted not_below l -> StronglySorted not_below (insert_desc sort_key x l).
Proof.
  intros Hx Hl Hs. induction Hs as [| y l Hs IH Hy]; cbn [insert_desc].
  - repeat constructor.
  - inversion Hl as [| ? ? Hny Hnl]; subst.
    destruct (ltb (sort_key x) (sort_key y)) eqn:Hlt.
    + constructor; [now apply IH |].
      apply (Permutation_Forall (Permutation_sym (insert_desc_perm x l))).
      constructor; [| exact Hy]. now apply ltb_asym.
    + constructor; [now constructor |].
      constructor; [exact Hlt |].
      rewrite Forall_forall in *. intros z Hz.
      apply (ltb_false_trans _ (sort_key y)); try assumption.
      * now apply Hnl.
      * now apply Hy.
Qed.

Lemma sort_desc_sorted (l : list A) :
  Forall no_nan l -> StronglySorted not_below (sort_desc sort_key l).
Proof.
  induction l as [| x l IH]; intros Hl; cbn [sort_desc fold_right].
  - constructor.
  - inversion Hl; subst. fold (sort_desc sort_key l).
    apply insert_desc_sorted; [assumption | | now apply IH].
    now apply (Permutation_Forall (Permutation_sym (sort_desc_perm l))).
Qed.

(** Stability: the elements whose key equals [v] keep their order. *)
Lemma insert_desc_stable (v : float) (x : A) (l : list A) :
  filter (fun y => eqb (sort_key y) v) (insert_desc sort_key x l)
  = filter (fun y => eqb (sort_key y) v) (x :: l).
Proof.
  induction l as [| y l IH]; cbn [insert_desc]; [reflexivity |].
  destruct (ltb (sort_key x) (sort_key y)) eqn:Hlt; [| reflexivity].
  cbn [filter] in *. rewrite IH.
  destruct (eqb (sort_key x) v) eqn:Ex, (eqb (sort_key y) v) eqn:Ey;
    try reflexivity.
  rewrite (eqb_eqb_not_ltb _ _ v Ex Ey) in Hlt. discriminate.
Qed.

Lemma sort_desc_stable (v : float) (l : list A) :
  filter (fun y => eqb (sort_key y) v) (sort_desc sort_key l)
  = filter (fun y => eqb (sort_key y) v) l.
Proof.
  induction l as [| x l IH]; cbn [sort_desc fold_right]; [reflexivity |].
  fold (sort_desc sort_key l). rewrite insert_desc_stable.
  cbn [filter]. now rewrite IH.
Qed.

Lemma sort_desc_descending (l : list A) :
  Forall no_nan l ->
  StronglySorted (fun x y => SFleb (sort_key y) (sort_key x) = true)
                 (sort_desc sort_key l).
Proof.
  intros Hl.
  assert (Hn : Forall no_nan (sort_desc sort_key l))
    by now apply (Permutation_Forall (Permutation_sym (sort_desc_perm l))).
  pose proof (sort_desc_sorted l Hl) as Hs.
  induction Hs as [| x r Hs IH Hx]; constructor.
  - apply IH. now inversion Hn.
  - inversion Hn as [| ? ? Hnx Hnr]; subst.
    rewrite Forall_forall in *. intros y Hy.
    apply ltb_false_leb; [exact Hnx | now apply Hnr | now apply Hx].
Qed.

End SortProofs.

Lemma firstn_In {A} (n : nat) (l : list A) (x : A) : In x (firstn n l) -> In x l.
Proof.
  revert l. induction n as [| n IH]; intros [| y l] H; cbn in *; try contradiction.
  destruct H as [-> | H]; [now left | right; now apply IH].
Qed.

Lemma firstn_StronglySorted {A} (R : A -> A -> Prop) (n : nat) (l : list A) :
  StronglySorted R l -> StronglySorted R (firstn n l).
Proof.
  intros Hs. revert n. induction Hs as [| x l Hs IH Hx]; intros [| n]; cbn [firstn];
    try constructor.
  - apply IH.
  - rewrite Forall_forall in *. intros y Hy. apply Hx. now apply firstn_In in Hy.
Qed.

(* ================================================================= *)
(** * The retrieval scan *)

Section ScanProofs.
Import Float64 VectorStore EmbeddingService.

Lemma dict_get_present (d : dict) (k : string) :
  In k (dict_keys d) -> exists e, dict_get d k = Some e /\ In (k, e) d.
Proof.
  induction d as [| [k' v'] d IH]; cbn [dict_keys map fst In dict_get]; [contradiction |].
  intros Hin. destruct (String.eqb_spec k k') as [-> | Hne].
  - exists v'. split; [reflexivity | now left].
  - destruct Hin as [Heq | Hin]; [congruence |].
    destruct (IH Hin) as (e & He & Hine). exists e. split; [exact He | now right].
Qed.

Lemma dict_get_In (d : dict) (k : string) (e : entry) :
  dict_get d k = Some e -> In (k, e) d.
Proof.
  induction d as [| [k' v'] d IH]; cbn [dict_get]; [discriminate |].
  destruct (String.eqb_spec k k') as [-> | Hne]; intros H.
  - injection H as ->. now left.
  - right. now apply IH.
Qed.

Variables (self : EmbeddingService.t) (q_vec : ndarray) (pdf_id : option string).

(** The keys the loop does not skip. *)
Let in_scope (k : string) : bool :=
  negb (pdf_id_truthy pdf_id && negb (startswith k (scope_prefix pdf_id))).

Let has_data (k : string) : bool :=
  match get_embedding_data (vector_store self) k with Some _ => true | None => false end.

Lemma scan_acc (keys : list string) :
  forall acc : list result,
    scan self q_vec pdf_id keys acc
    = (res <- scan self q_vec pdf_id keys [] ;; Returned (acc ++ res)%list).
Proof.
  induction keys as [| k keys IH]; intros acc; cbn [scan bind].
  - now rewrite app_nil_r.
  - destruct (pdf_id_truthy pdf_id && negb (startswith k (scope_prefix pdf_id)));
      [apply IH |].
    destruct (get_embedding_data (vector_store self) k) as [data |]; [| apply IH].
    destruct (_cosine_similarity self q_vec (vector data)) as [sim | e |]; cbn [bind];
      [| reflexivity | reflexivity].
    rewrite IH. rewrite (IH ([] ++ _)%list).
    destruct (scan self q_vec pdf_id keys []) as [res | e |]; cbn [bind];
      [| reflexivity | reflexivity].
    now rewrite <- app_assoc.
Qed.

(** The candidates are the records of the keys in scope, in scan order. *)
Lemma scan_keys (keys : list string) :
  forall res : list result,
    scan self q_vec pdf_id keys [] = Returned res ->
    map key res = filter (fun k => in_scope k && has_data k) keys.
Proof.
  induction keys as [| k keys IH]; intros res H; cbn [scan] in H.
  - injection H as <-. reflexivity.
  - cbn [filter]. unfold in_scope at 1, has_data at 1.
    destruct (pdf_id_truthy pdf_id && negb (startswith k (scope_prefix pdf_id)));
      cbn [negb andb]; [now apply IH |].
    destruct (get_embedding_data (vector_store self) k) as [data |]; [| now apply IH].
    destruct (_cosine_similarity self q_vec (vector data)) as [sim | e |]; cbn [bind] in H;
      try discriminate.
    rewrite scan_acc in H.
    destruct (scan self q_vec pdf_id keys []) as [res' | e |]; cbn [bind] in H;
      try discriminate.
    injection H as <-. cbn [app map key]. f_equal. now apply IH.
Qed.

(** The scan returns when no similarity computation on a record in scope
    raises, and only then. *)
Lemma scan_returns_in_scope (keys : list string) :
  (forall k data,
      In k keys -> in_scope k = true ->
      get_embedding_data (vector_store self) k = Some data ->
      exists sim, _cosine_similarity self q_vec (vector data) = Returned sim) ->
  exists res, scan self q_vec pdf_id keys [] = Returned res.
Proof.
  induction keys as [| k keys IH]; intros Hcos; cbn [scan].
  - now eexists.
  - destruct IH as [res Hres]; [intros k' d' Hin; apply Hcos; now right |].
    pose proof (Hcos k) as Hk. unfold in_scope in Hk.
    destruct (pdf_id_truthy pdf_id && negb (startswith k (scope_prefix pdf_id)));
      [now exists res |].
    destruct (get_embedding_data (vector_store self) k) as [data |] eqn:Hget;
      [| now exists res].
    destruct (Hk data (or_introl eq_refl) eq_refl eq_refl) as [sim Hsim].
    rewrite Hsim. cbn [bind]. rewrite scan_acc, Hres. cbn [bind]. now eexists.
Qed.

Lemma scan_returned_scores (keys : list string) (res : list result) :
  scan self q_vec pdf_id keys [] = Returned res ->
  forall k data,
    In k keys -> in_scope k = true ->
    get_embedding_data (vector_store self) k = Some data ->
    exists sim, _cosine_similarity self q_vec (vector data) = Returned sim.
Proof.
  revert res. induction keys as [| k keys IH]; intros res H k' data' Hin Hsc Hget;
    [contradiction |].
  cbn [scan] in H.
  destruct (pdf_id_truthy pdf_id && negb (startswith k (scope_prefix pdf_id))) eqn:Hskip.
  - destruct Hin as [<- | Hin]; [| now apply (IH res H k' data')].
    unfold in_scope in Hsc. rewrite Hskip in Hsc. discriminate.
  - destruct (get_embedding_data (vector_store self) k) as [data |] eqn:Hdata.
    + destruct (_cosine_similarity self q_vec (vector data)) as [sim | e |] eqn:Hsim;
        cbn [bind] in H; try discriminate.
      rewrite scan_acc in H.
      destruct (scan self q_vec pdf_id keys []) as [res' | e |] eqn:Hrest;
        cbn [bind] in H; try discriminate.
      destruct Hin as [<- | Hin]; [| now apply (IH res' eq_refl k' data')].
      rewrite Hdata in Hget. injection Hget as <-. now exists sim.
    + destruct Hin as [<- | Hin]; [congruence | now apply (IH res H k' data')].
Qed.

(** The scan returns when no similarity computation raises. *)
Lemma scan_returns (keys : list string) :
  (forall k data,
      In k keys -> get_embedding_data (vector_store self) k = Some data ->
      exists sim, _cosine_similarity self q_vec (vector data) = Returned sim) ->
  exists res, scan self q_vec pdf_id keys [] = Returned res.
Proof.
  induction keys as [| k keys IH]; intros Hcos; cbn [scan].
  - now eexists.
  - destruct IH as [res Hres]; [intros k' d' Hin; apply Hcos; now right |].
    destruct (pdf_id_truthy pdf_id && negb (startswith k (scope_prefix pdf_id)));
      [now exists res |].
    destruct (get_embedding_data (vector_store self) k) as [data |] eqn:Hget;
      [| now exists res].
    destruct (Hcos k data (or_introl eq_refl) Hget) as [sim Hsim].
    rewrite Hsim. cbn [bind]. rewrite scan_acc, Hres. cbn [bind]. now eexists.
Qed.

Lemma scan_keys_all (res : list result) :
  scan self q_vec pdf_id (get_all_embeddings (vector_store self)) [] = Returned res ->
  map key res = filter in_scope (get_all_embeddings (vector_store self)).
Proof.
  intros H. rewrite (scan_keys _ _ H). apply filter_ext_in.
  intros k Hin. unfold has_data, get_embedding_data.
  destruct (dict_get_present _ _ Hin) as (e & -> & _). apply andb_true_r.
Qed.

End ScanProofs.

(** Vectors of one length never make the similarity raise. *)
Lemma cosine_similarity_returns (self : EmbeddingService.t) (a b : Float64.ndarray) :
  List.length a = List.length b ->
  exists sim, EmbeddingService._cosine_similarity self a b = Returned sim.
Proof.
  intros Hlen. unfold EmbeddingService._cosine_similarity, Float64.dot.
  rewrite Hlen, Nat.eqb_refl.
  destruct (negb (Float64.any a) || negb (Float64.any b)); [now eexists |].
  destruct (Float64.eqb _ _); now eexists.
Qed.

(* ================================================================= *)
(** * Retrieval *)

(** C3, as the code has it, for a scope that is [None] or a non-empty
    [pdf_id], and for every [top_k].  [find_similar_chunks] returns exactly
    when no similarity computation on a record in scope raises.  When it
    returns, the candidates are the records of every key in scope, in scan
    order; every result is a candidate; for [top_k >= 0] there are
    [min(top_k, candidates)] results, so at most [top_k], and for
    [top_k < 0] there are the candidates less [|top_k|]; and under a
    [pdf_id] every key returned starts with ["{pdf_id}_"].  When moreover
    no similarity is NaN, the results are that many first elements of the
    stable descending sort of the full candidate list: the sort permutes the
    candidates, is descending in similarity, and keeps candidates of equal
    similarity in scan order. *)
Theorem find_similar_chunks_top_k
        (genai : EmbeddingService.embed_api) (self : EmbeddingService.t)
        (query : string) (pdf_id : option string) (top_k : Z) :
  pdf_id <> Some "" ->
  ((exists results : list EmbeddingService.result,
       EmbeddingService.find_similar_chunks genai self query pdf_id top_k
       = Returned results)
   <-> (forall (k : string) (data : VectorStore.entry),
           In k (VectorStore.get_all_embeddings (EmbeddingService.vector_store self)) ->
           match pdf_id with
           | None => true
           | Some p => startswith k (p ++ "_")
           end = true ->
           VectorStore.get_embedding_data (EmbeddingService.vector_store self) k
           = Some data ->
           exists sim,
             EmbeddingService._cosine_similarity self
               (EmbeddingService.generate_query_embedding genai self query)
               (VectorStore.vector data) = Returned sim))
  /\ (forall results : list EmbeddingService.result,
         EmbeddingService.find_similar_chunks genai self query pdf_id top_k
         = Returned results ->
         exists cands : list EmbeddingService.result,
           EmbeddingService.scan self
             (EmbeddingService.generate_query_embedding genai self query) pdf_id
             (VectorStore.get_all_embeddings (EmbeddingService.vector_store self)) []
           = Returned cands
           /\ map EmbeddingService.key cands
              = filter (fun k => match pdf_id with
                                 | None => true
                                 | Some p => startswith k (p ++ "_")
                                 end)
                       (VectorStore.get_all_embeddings (EmbeddingService.vector_store self))
           /\ (forall r, In r results -> In r cands)
           /\ (0 <= top_k ->
               List.length results = Nat.min (Z.to_nat top_k) (List.length cands)
               /\ Z.of_nat (List.length results) <= top_k)
           /\ (top_k < 0 ->
               List.length results = (List.length cands - Z.to_nat (- top_k))%nat)
           /\ (forall p : string,
                  pdf_id = Some p ->
                  Forall (fun r => startswith (EmbeddingService.key r) (p ++ "_") = true)
                         results)
           /\ (Forall (fun r => Float64.is_nan (EmbeddingService.similarity r) = false)
                      cands ->
               (0 <= top_k ->
                results = firstn (Z.to_nat top_k)
                                 (EmbeddingService.sort_desc EmbeddingService.similarity cands))
               /\ (top_k < 0 ->
                   results = firstn (List.length cands - Z.to_nat (- top_k))
                                    (EmbeddingService.sort_desc EmbeddingService.similarity
                                                                cands))
               /\ Permutation (EmbeddingService.sort_desc EmbeddingService.similarity cands)
                              cands
               /\ StronglySorted
                    (fun r1 r2 => SFleb (EmbeddingService.similarity r2)
                                        (EmbeddingService.similarity r1) = true)
                    (EmbeddingService.sort_desc EmbeddingService.similarity cands)
               /\ StronglySorted
                    (fun r1 r2 => SFleb (EmbeddingService.similarity r2)
                                        (EmbeddingService.similarity r1) = true)
                    results
               /\ (forall v : Float64.float,
                      filter (fun r => Float64.eqb (EmbeddingService.similarity r) v)
                             (EmbeddingService.sort_desc EmbeddingService.similarity cands)
                      = filter (fun r => Float64.eqb (EmbeddingService.similarity r) v)
                               cands))).
Proof.
  intros Hne.
  set (q_vec := EmbeddingService.generate_query_embedding genai self query).
  set (keys := VectorStore.get_all_embeddings (EmbeddingService.vector_store self)).
  assert (Hscope : forall k,
             negb (EmbeddingService.pdf_id_truthy pdf_id
                   && negb (startswith k (EmbeddingService.scope_prefix pdf_id)))
             = match pdf_id with None => true | Some p => startswith k (p ++ "_") end).
  { intros k. destruct pdf_id as [p |]; [| reflexivity].
    cbn [EmbeddingService.pdf_id_truthy EmbeddingService.scope_prefix].
    assert (Hp : String.eqb p "" = false) by (apply String.eqb_neq; congruence).
    rewrite Hp. cbn [negb andb]. apply negb_involutive. }
  split.
  - split.
    + intros [results Hfind]. unfold EmbeddingService.find_similar_chunks in Hfind.
      fold q_vec keys in Hfind.
      destruct (EmbeddingService.scan self q_vec pdf_id keys []) as [cands | e |] eqn:Hscan;
        cbn [bind] in Hfind; try discriminate.
      intros k data Hin Hsc Hget.
      apply (scan_returned_scores self q_vec pdf_id keys cands Hscan k data Hin);
        [now rewrite Hscope | exact Hget].
    + intros Hcos.
      destruct (scan_returns_in_scope self q_vec pdf_id keys) as [cands Hscan].
      { intros k data Hin Hsc Hget. apply (Hcos k data Hin); [| exact Hget].
        now rewrite <- Hscope. }
      eexists. unfold EmbeddingService.find_similar_chunks. fold q_vec keys.
      rewrite Hscan. reflexivity.
  - intros results Hfind. unfold EmbeddingService.find_similar_chunks in Hfind.
    fold q_vec keys in Hfind.
    destruct (EmbeddingService.scan self q_vec pdf_id keys []) as [cands | e |] eqn:Hscan;
      cbn [bind] in Hfind; try discriminate.
    injection Hfind as Hres.
    pose proof (scan_keys_all self q_vec pdf_id cands Hscan) as Hkeys.
    fold keys in Hkeys.
    pose proof (sort_desc_perm EmbeddingService.similarity cands) as Hperm.
    assert (Hin : forall r, In r results -> In r cands).
    { intros r Hr. subst results. apply (Permutation_in _ Hperm).
      destruct (Z.ltb_spec top_k 0).
      - rewrite list_slice_upto_neg in Hr by assumption. now apply firstn_In in Hr.
      - rewrite list_slice_upto in Hr by assumption. now apply firstn_In in Hr. }
    exists cands. split; [reflexivity |]. split.
    { rewrite Hkeys. apply filter_ext. exact Hscope. }
    split; [exact Hin |]. split.
    { intros Hk. subst results. rewrite list_slice_upto by assumption.
      rewrite length_firstn, (Permutation_length Hperm). lia. }
    split.
    { intros Hk. subst results. rewrite list_slice_upto_neg by assumption.
      rewrite length_firstn, (Permutation_length Hperm). lia. }
    split.
    { intros p ->. rewrite Forall_forall. intros r Hr. apply Hin in Hr.
      apply (in_map EmbeddingService.key) in Hr. rewrite Hkeys in Hr.
      apply filter_In in Hr. destruct Hr as [_ Hr]. now rewrite Hscope in Hr. }
    intros Hnan.
    split; [intros Hk; subst results; now apply list_slice_upto |].
    split.
    { intros Hk. subst results. rewrite list_slice_upto_neg by assumption.
      now rewrite (Permutation_length Hperm). }
    split; [exact Hperm |].
    split; [now apply sort_desc_descending |].
    split; [| intros v; apply sort_desc_stable].
    subst results. destruct (Z.ltb_spec top_k 0).
    + rewrite list_slice_upto_neg by assumption.
      apply firstn_StronglySorted. now apply sort_desc_descending.
    + rewrite list_slice_upto by assumption.
      apply firstn_StronglySorted. now apply sort_desc_descending.
Qed.

Lemma find_similar_chunks_top_k_witness :
  EmbeddingService.find_similar_chunks Samples.genai Samples.mixed_lengths
    "q" (Some "a") 1
  = Returned [EmbeddingService.mkResult "a_chunk_0" Float64.one "alpha" 0 "a"]
  /\ exists results : list EmbeddingService.result,
      EmbeddingService.find_similar_chunks Samples.genai Samples.mixed_lengths
        "q" (Some "a") 1 = Returned results
      /\ Z.of_nat (List.length results) <= 1
      /\ Forall (fun r => startswith (EmbeddingService.key r) ("a" ++ "_") = true) results
      /\ StronglySorted
           (fun r1 r2 => SFleb (EmbeddingService.similarity r2)
                               (EmbeddingService.similarity r1) = true)
           results.
Proof.
  split; [vm_compute; reflexivity |].
  destruct (find_similar_chunks_top_k Samples.genai Samples.mixed_lengths
              "q" (Some "a") 1 ltac:(discriminate)) as [Hiff Hprops].
  destruct (proj2 Hiff) as [results Hfind].
  { intros k data [<- | [<- | []]] Hsc Hget.
    - vm_compute in Hget. injection Hget as <-. eexists. vm_compute. reflexivity.
    - vm_compute in Hsc. discriminate. }
  destruct (Hprops results Hfind)
    as (cands & Hscan & _ & _ & Hlen & _ & Hpre & Hsorted).
  exists results. split; [exact Hfind |].
  split; [apply Hlen; lia |].
  split; [now apply (Hpre "a") |].
  apply Hsorted.
  vm_compute in Hscan. injection Hscan as <-. repeat constructor.
Defined.

(** C3 as the spec states it fails at three inputs.  With [top_k = -1] the
    slice drops the last result and returns two, which is more than
    [top_k]; with a query embedding of three components against stored
    vectors of two, [np.dot] raises and nothing is returned; and with a
    stored vector that holds an infinity one similarity is NaN, which [<]
    orders against nothing, so [list.sort] leaves a result of similarity
    [0.7071067811865475] before one of similarity [1.0]. *)
Lemma find_similar_chunks_counterexample :
  (exists r1 r2 : EmbeddingService.result,
      EmbeddingService.find_similar_chunks Samples.genai Samples.two_documents
        "q" None (-1) = Returned [r1; r2]
      /\ ~ Z.of_nat (List.length [r1; r2]) <= -1)
  /\ EmbeddingService.find_similar_chunks Samples.genai_3d Samples.two_documents
       "q" (Some "a") 3
     = Raised (ValueError "shapes (3,) and (2,) not aligned: 3 (dim 0) != 2 (dim 0)")
  /\ (exists r1 r2 r3 : EmbeddingService.result,
         EmbeddingService.find_similar_chunks Samples.genai Samples.with_infinity
           "q" (Some "a") 3 = Returned [r1; r2; r3]
         /\ EmbeddingService.similarity r1 = S754_finite false 6369051672525772 (-53)
         /\ EmbeddingService.similarity r2 = S754_nan
         /\ EmbeddingService.similarity r3 = Float64.one
         /\ Float64.ltb (EmbeddingService.similarity r1) (EmbeddingService.similarity r3)
            = true).
Proof.
  split; [| split].
  - do 2 eexists. split; [vm_compute; reflexivity |]. cbn. lia.
  - vm_compute. reflexivity.
  - do 3 eexists. split; [vm_compute; reflexivity |]. repeat split.
Qed.

Lemma length_append (s1 s2 : string) :
  String.length (s1 ++ s2) = (String.length s1 + String.length s2)%nat.
Proof.
  induction s1 as [| c s1 IH]; cbn; [reflexivity | now rewrite IH].
Qed.

(** C10. Scoping by key prefix does not separate document ids.  Whenever an
    id [b] starts with [a] followed by ["_"] (as ["doc_2"] does for ["doc"]),
    the ids are distinct; [clear_pdf_embeddings(a)] returns and leaves no
    record under any key that starts with ["{b}_"]; the scan of
    [find_similar_chunks] scoped to [a] lets every key that starts with
    ["{b}_"] through; and when no similarity computation on a record the
    scan lets through raises, [find_similar_chunks] scoped to [a] returns,
    every result is a record the scan let through, and with [top_k] at
    least the size of the store every stored key that starts with
    ["{b}_"] is among the keys returned. *)
Theorem prefix_scope_not_injective
        (genai : EmbeddingService.embed_api) (self : EmbeddingService.t)
        (a b : string) :
  startswith b (a ++ "_") = true ->
  a <> b
  /\ (exists self' : EmbeddingService.t,
         EmbeddingService.clear_pdf_embeddings self a = Returned self'
         /\ forall k : string,
             startswith k (b ++ "_") = true ->
             VectorStore.get_embedding_data (EmbeddingService.vector_store self') k = None
             /\ ~ In k (VectorStore.get_all_embeddings
                          (EmbeddingService.vector_store self')))
  /\ (forall k : string,
         startswith k (b ++ "_") = true ->
         EmbeddingService.passes_scope (Some a) k = true)
  /\ (forall (query : string) (top_k : Z),
         (forall (k : string) (data : VectorStore.entry),
             In k (VectorStore.get_all_embeddings (EmbeddingService.vector_store self)) ->
             EmbeddingService.passes_scope (Some a) k = true ->
             VectorStore.get_embedding_data (EmbeddingService.vector_store self) k
             = Some data ->
             exists sim,
               EmbeddingService._cosine_similarity self
                 (EmbeddingService.generate_query_embedding genai self query)
                 (VectorStore.vector data) = Returned sim) ->
         exists results : list EmbeddingService.result,
           EmbeddingService.find_similar_chunks genai self query (Some a) top_k
           = Returned results
           /\ (forall r, In r results ->
                         In (EmbeddingService.key r)
                            (VectorStore.get_all_embeddings
                               (EmbeddingService.vector_store self))
                         /\ EmbeddingService.passes_scope (Some a) (EmbeddingService.key r)
                            = true)
           /\ (Z.of_nat (List.length (VectorStore.get_all_embeddings
                                        (EmbeddingService.vector_store self))) <= top_k ->
               forall k : string,
                 In k (VectorStore.get_all_embeddings
                         (EmbeddingService.vector_store self)) ->
                 startswith k (b ++ "_") = true ->
                 In k (map EmbeddingService.key results))).
Proof.
  intros Hab.
  assert (Hscope : forall k, startswith k (b ++ "_") = true ->
                             startswith k (a ++ "_") = true).
  { intros k Hk. apply (startswith_trans k (a ++ "_") b); [| exact Hab].
    apply (startswith_trans k b (b ++ "_")); [exact Hk | apply startswith_app]. }
  assert (Hpass : forall k, startswith k (b ++ "_") = true ->
                            EmbeddingService.passes_scope (Some a) k = true).
  { intros k Hk. unfold EmbeddingService.passes_scope.
    cbn [EmbeddingService.scope_prefix]. rewrite (Hscope k Hk).
    cbn [negb]. now rewrite andb_false_r. }
  split; [| split; [| split; [exact Hpass |]]].
  - intros ->. apply startswith_iff in Hab. destruct Hab as [r Hr].
    apply (f_equal String.length) in Hr. rewrite !length_append in Hr.
    cbn in Hr. lia.
  - unfold EmbeddingService.clear_pdf_embeddings.
    rewrite remove_embeddings_by_prefix_spec. cbn [bind]. eexists.
    split; [reflexivity |]. intros k Hk.
    unfold VectorStore.get_embedding_data, VectorStore.get_all_embeddings.
    cbn [EmbeddingService.with_store EmbeddingService.vector_store VectorStore.embeddings].
    split.
    + apply (dict_get_filter_out (fun k => startswith k (a ++ "_"))). now apply Hscope.
    + intros Hin.
      apply (keys_of_filtered (fun k => startswith k (a ++ "_"))) in Hin.
      rewrite (Hscope k Hk) in Hin. discriminate.
  - intros query top_k Hcos.
    destruct (scan_returns_in_scope self
                (EmbeddingService.generate_query_embedding genai self query) (Some a)
                (VectorStore.get_all_embeddings (EmbeddingService.vector_store self)) Hcos)
      as [cands Hscan].
    pose proof (scan_keys_all _ _ _ _ Hscan) as Hkeys.
    pose proof (sort_desc_perm EmbeddingService.similarity cands) as Hperm.
    eexists. split; [| split].
    + unfold EmbeddingService.find_similar_chunks. rewrite Hscan. reflexivity.
    + intros r Hr.
      assert (Hc : In r cands).
      { apply (Permutation_in _ Hperm).
        destruct (Z.ltb_spec top_k 0).
        - rewrite list_slice_upto_neg in Hr by assumption. now apply firstn_In in Hr.
        - rewrite list_slice_upto in Hr by assumption. now apply firstn_In in Hr. }
      apply (in_map EmbeddingService.key) in Hc. rewrite Hkeys in Hc.
      apply filter_In in Hc. exact Hc.
    + intros Htop k Hin Hk.
      assert (Hlen : (List.length cands
                      <= List.length (VectorStore.get_all_embeddings
                                        (EmbeddingService.vector_store self)))%nat).
      { rewrite <- (length_map EmbeddingService.key), Hkeys. apply filter_length_le. }
      rewrite list_slice_upto by lia.
      rewrite firstn_all2 by (rewrite (Permutation_length Hperm); lia).
      apply (Permutation_in _ (Permutation_map _ (Permutation_sym Hperm))).
      rewrite Hkeys. apply filter_In. split; [exact Hin | now apply Hpass].
Qed.

(** The same on the sample store of ["doc"] and ["doc_2"]: clearing ["doc"]
    empties the store, and a query scoped to ["doc"] returns the two records
    of ["doc_2"] after the one of ["doc"]. *)
Lemma prefix_scope_not_injective_witness :
  "doc" <> "doc_2"
  /\ EmbeddingService.clear_pdf_embeddings Samples.doc_and_doc_2 "doc"
     = Returned (Samples.service_of [])
  /\ (exists self' : EmbeddingService.t,
         EmbeddingService.clear_pdf_embeddings Samples.doc_and_doc_2 "doc" = Returned self'
         /\ VectorStore.get_embedding_data (EmbeddingService.vector_store self')
              "doc_2_chunk_0" = None
         /\ VectorStore.get_embedding_data (EmbeddingService.vector_store self')
              "doc_2_chunk_1" = None)
  /\ EmbeddingService.find_similar_chunks Samples.genai Samples.doc_and_doc_2
       "q" (Some "doc") 3
     = Returned
         [ EmbeddingService.mkResult "doc_chunk_0" Float64.one "first" 0 "doc";
           EmbeddingService.mkResult "doc_2_chunk_0"
             (S754_finite false 6369051672525772 (-53)) "second" 0 "doc_2";
           EmbeddingService.mkResult "doc_2_chunk_1" Float64.zero "third" 1 "doc_2" ]
  /\ (exists results : list EmbeddingService.result,
         EmbeddingService.find_similar_chunks Samples.genai Samples.doc_and_doc_2
           "q" (Some "doc") 3 = Returned results
         /\ In "doc_2_chunk_0" (map EmbeddingService.key results)
         /\ In "doc_2_chunk_1" (map EmbeddingService.key results)).
Proof.
  destruct (prefix_scope_not_injective Samples.genai Samples.doc_and_doc_2
              "doc" "doc_2" eq_refl)
    as (Hne & (self' & Hclear & Hgone) & _ & Hfind).
  split; [exact Hne |].
  split; [reflexivity |].
  split.
  { exists self'. split; [exact Hclear |].
    split; [apply (Hgone "doc_2_chunk_0") | apply (Hgone "doc_2_chunk_1")]; reflexivity. }
  split; [vm_compute; reflexivity |].
  destruct (Hfind "q" 3) as (results & Hres & _ & Hall).
  { intros k data [<- | [<- | [<- | []]]] _ Hget;
      vm_compute in Hget; injection Hget as <-; eexists; vm_compute; reflexivity. }
  exists results. split; [exact Hres |].
  split.
  - apply (Hall ltac:(cbn; lia) "doc_2_chunk_0"); [| reflexivity].
    right. left. reflexivity.
  - apply (Hall ltac:(cbn; lia) "doc_2_chunk_1"); [| reflexivity].
    right. right. left. reflexivity.
Defined.

(* ================================================================= *)
(** * Prompt context and streaming *)

Section ContextProofs.
Import Float64 RAGService.

Lemma format_loop_spec (items : list (Z * EmbeddingService.result)) :
  forall lines : list string,
    format_loop items lines
    = (lines ++ map (fun pc => render_chunk (fst pc) (snd pc))
                    (filter (fun pc => gtb (EmbeddingService.similarity (snd pc)) threshold)
                            items))%list.
Proof.
  induction items as [| [idx c] items IH]; intros lines; cbn [format_loop filter map].
  - now rewrite app_nil_r.
  - cbn [fst snd].
    destruct (gtb (EmbeddingService.similarity c) threshold); rewrite IH.
    + cbn [map fst snd]. now rewrite <- app_assoc.
    + reflexivity.
Qed.


End ContextProofs.

(** C8. The lines of the assembled context are exactly the renderings of
    the retrieved chunks whose similarity is strictly above [0.05]; a list
    none of whose chunks is above the threshold, and in particular a single
    chunk of similarity [0.02], assembles to the empty string. *)
Theorem format_context_threshold (chunks : list EmbeddingService.result) :
  (forall line : string,
      In line (RAGService.format_loop (enumerate chunks 1) [])
      <-> exists (idx : Z) (c : EmbeddingService.result),
          In (idx, c) (enumerate chunks 1)
          /\ Float64.gtb (EmbeddingService.similarity c) RAGService.threshold = true
          /\ line = RAGService.render_chunk idx c)
  /\ (Forall (fun c => Float64.gtb (EmbeddingService.similarity c)
                                   RAGService.threshold = false) chunks ->
      RAGService._format_context chunks = "")
  /\ (forall c : EmbeddingService.result,
         EmbeddingService.similarity c = Float64.of_ratio 2 100 ->
         RAGService._format_context [c] = "").
Proof.
  split; [| split].
  - intros line. rewrite format_loop_spec, app_nil_l, in_map_iff. split.
    + intros ([idx c] & <- & Hin). apply filter_In in Hin. destruct Hin as [Hin Hgt].
      exists idx, c. now repeat split.
    + intros (idx & c & Hin & Hgt & ->). exists (idx, c). split; [reflexivity |].
      apply filter_In. now split.
  - intros Hall. unfold RAGService._format_context.
    destruct chunks as [| c0 chunks0]; [reflexivity |].
    rewrite format_loop_spec, app_nil_l, filter_none; [reflexivity |].
    intros [idx c] Hin. cbn [snd]. rewrite Forall_forall in Hall. apply Hall.
    apply (in_map snd) in Hin. cbn [snd] in Hin.
    assert (Hsnd : forall (l : list EmbeddingService.result) i,
               map snd (enumerate l i) = l).
    { induction l as [| x l IH]; intros i; cbn; [reflexivity | now rewrite IH]. }
    now rewrite Hsnd in Hin.
  - intros c Hc. unfold RAGService._format_context. cbn [enumerate RAGService.format_loop].
    rewrite Hc. reflexivity.
Qed.

Lemma format_context_threshold_witness :
  RAGService._format_context
    [EmbeddingService.mkResult "doc_chunk_0" (Float64.of_ratio 2 100) "text" 0 "doc"]
  = "".
Proof.
  apply (proj2 (proj2 (format_context_threshold []))). reflexivity.
Defined.

(** [:.2f] rounds the exact binary value, ties to even: [0.125] is a tie and
    goes to ["0.12"], [0.375] to ["0.38"]; [0.995] lies below the tie. *)
Example format_2f_samples :
  map Float64.format_2f
      [ Float64.of_ratio 125 1000; Float64.of_ratio 375 1000;
        Float64.of_ratio 995 1000; Float64.of_ratio (-5) 1000;
        Float64.one; Float64.zero ]
  = ["0.12"; "0.38"; "0.99"; "-0.01"; "1.00"; "0.00"].
Proof. vm_compute. reflexivity. Qed.

Section ContextMoreProofs.
Import Float64 RAGService.






End ContextMoreProofs.




(** C6. When the generation provider raises at the call that requests the
    stream, the generator of the client yields exactly one fragment, the
    error marker ["[Error] "] followed by the exception's text, and is then
    exhausted; the streaming answer of the RAG service, whose retrieval has
    returned, returns that generator.  Nothing is raised to the consumer. *)
Theorem stream_response_provider_failure
        (genai : EmbeddingService.embed_api) (self : RAGService.t)
        (user_query pdf_id : string)
        (chat_history : option (list GeminiClient.message))
        (chunks : list EmbeddingService.result) (e : exn) :
  EmbeddingService.find_similar_chunks genai (RAGService.embedding_service self)
    user_query (Some pdf_id) 3 = Returned chunks ->
  RAGService.gemini_client self
    (GeminiClient._build_prompt user_query (RAGService._format_context chunks)
       chat_history) = inl e ->
  GeminiClient.stream_response (RAGService.gemini_client self) user_query
    (RAGService._format_context chunks) chat_history
  = [GeminiClient.error_fragment e]
  /\ RAGService.stream_response genai self user_query pdf_id chat_history
     = Returned [GeminiClient.error_fragment e]
  /\ GeminiClient.error_fragment e = "[Error] " ++ exc_str e
  /\ startswith (GeminiClient.error_fragment e) "[Error] " = true.
Proof.
  intros Hfind Hraise.
  assert (Hgen : GeminiClient.stream_response (RAGService.gemini_client self) user_query
                   (RAGService._format_context chunks) chat_history
                 = [GeminiClient.error_fragment e])
    by (unfold GeminiClient.stream_response; now rewrite Hraise).
  split; [exact Hgen |]. split.
  - unfold RAGService.stream_response. rewrite Hfind. cbn [bind]. now rewrite Hgen.
  - split; [reflexivity | apply startswith_app].
Qed.

(** A failure in the middle of the stream: the fragments yielded so far
    are followed by one error fragment, which is the last. *)
Lemma stream_response_midstream_failure
      (model : GeminiClient.generate_api) (prompt context : string)
      (chat_history : option (list GeminiClient.message))
      (it : GeminiClient.response_iter) (fragments : list string) (e : exn) :
  model (GeminiClient._build_prompt prompt context chat_history) = inr it ->
  GeminiClient.drain it = (fragments, Some e) ->
  GeminiClient.stream_response model prompt context chat_history
  = (fragments ++ [GeminiClient.error_fragment e])%list.
Proof.
  intros Hcall Hdrain. unfold GeminiClient.stream_response.
  now rewrite Hcall, Hdrain.
Qed.

Lemma stream_response_provider_failure_witness :
  GeminiClient.stream_response Samples.failing_model "what?"
    (RAGService._format_context
       [ EmbeddingService.mkResult "doc_chunk_0" Float64.one "first" 0 "doc";
         EmbeddingService.mkResult "doc_2_chunk_0"
           (S754_finite false 6369051672525772 (-53)) "second" 0 "doc_2";
         EmbeddingService.mkResult "doc_2_chunk_1" Float64.zero "third" 1 "doc_2" ])
    None
  = ["[Error] 429 quota exceeded"]
  /\ RAGService.stream_response Samples.genai
       (RAGService.mkRAG Samples.doc_and_doc_2 Samples.failing_model)
       "what?" "doc" None
     = Returned ["[Error] 429 quota exceeded"].
Proof.
  destruct (stream_response_provider_failure Samples.genai
              (RAGService.mkRAG Samples.doc_and_doc_2 Samples.failing_model)
              "what?" "doc" None
              [ EmbeddingService.mkResult "doc_chunk_0" Float64.one "first" 0 "doc";
                EmbeddingService.mkResult "doc_2_chunk_0"
                  (S754_finite false 6369051672525772 (-53)) "second" 0 "doc_2";
                EmbeddingService.mkResult "doc_2_chunk_1" Float64.zero "third" 1 "doc_2" ]
              (PyExc "ResourceExhausted" "429 quota exceeded"))
    as (Hgen & Hrag & _ & _).
  - vm_compute. reflexivity.
  - reflexivity.
  - split; [exact Hgen | exact Hrag].
Defined.

(* ================================================================= *)
(** * Whitespace: strip, split and clean_text *)

Section WhitespaceProofs.

Lemma all_chars_app (P : ascii -> bool) (a b : string) :
  all_chars P (a ++ b) = all_chars P a && all_chars P b.
Proof.
  induction a as [| c a IH]; cbn [append all_chars]; [reflexivity |].
  now rewrite IH, andb_assoc.
Qed.

Lemma lstrip_empty_iff (s : string) :
  lstrip s = "" <-> all_chars isspace s = true.
Proof.
  induction s as [| c s IH]; cbn [lstrip all_chars]; [tauto |].
  destruct (isspace c); cbn [andb]; [exact IH |].
  split; discriminate.
Qed.

Lemma rstrip_empty_iff (s : string) :
  rstrip s = "" <-> all_chars isspace s = true.
Proof.
  induction s as [| c s IH]; cbn [rstrip all_chars]; [tauto |].
  destruct (rstrip s) as [| c' r].
  - rewrite (proj1 IH eq_refl), andb_true_r.
    destruct (isspace c); split; congruence.
  - split; [discriminate |]. intros H. apply andb_prop in H.
    destruct H as [_ H]. apply IH in H. discriminate.
Qed.

Lemma all_space_lstrip (s : string) :
  all_chars isspace (lstrip s) = all_chars isspace s.
Proof.
  induction s as [| c s IH]; cbn [lstrip all_chars]; [reflexivity |].
  destruct (isspace c) eqn:Hc; cbn [andb all_chars]; [exact IH |].
  now rewrite Hc.
Qed.

(** [s.strip()] is empty exactly when [s] is all whitespace. *)
Lemma strip_empty_iff (s : string) :
  strip s = "" <-> all_chars isspace s = true.
Proof.
  unfold strip. now rewrite rstrip_empty_iff, all_space_lstrip.
Qed.

Lemma length_lstrip (s : string) : (String.length (lstrip s) <= String.length s)%nat.
Proof.
  induction s as [| c s IH]; cbn [lstrip String.length]; [lia |].
  destruct (isspace c); cbn [String.length]; lia.
Qed.

Lemma length_rstrip (s : string) : (String.length (rstrip s) <= String.length s)%nat.
Proof.
  induction s as [| c s IH]; cbn [rstrip String.length]; [lia |].
  destruct (rstrip s) as [| c' r]; [destruct (isspace c) |]; cbn [String.length] in *; lia.
Qed.

Lemma len_strip_le (s : string) : len (strip s) <= len s.
Proof.
  unfold len, strip.
  pose proof (length_rstrip (lstrip s)). pose proof (length_lstrip s). lia.
Qed.

(** ** Words *)

Lemma split_from_words (s : string) :
  forall word : string,
    all_chars not_space word = true -> Forall is_word (split_from s word).
Proof.
  induction s as [| c s IH]; intros word Hw; cbn [split_from].
  - destruct word as [| a w]; constructor; [| constructor].
    split; [discriminate | exact Hw].
  - destruct (isspace c) eqn:Hc.
    + destruct word as [| a w]; [now apply IH |].
      constructor; [split; [discriminate | exact Hw] | now apply IH].
    + apply IH. rewrite all_chars_app, Hw. cbn. unfold not_space. now rewrite Hc.
Qed.

Lemma split_from_app_word (t : string) :
  all_chars not_space t = true ->
  forall rest word : string,
    split_from (t ++ rest) word = split_from rest (word ++ t).
Proof.
  induction t as [| c t IH]; intros Ht rest word.
  - now rewrite append_empty_r.
  - cbn [all_chars] in Ht. apply andb_prop in Ht. destruct Ht as [Hc Ht].
    unfold not_space in Hc. apply negb_true_iff in Hc.
    cbn [append split_from]. rewrite Hc, (IH Ht), append_assoc. reflexivity.
Qed.

Lemma append_nonempty_r (a b : string) : b <> "" -> a ++ b <> "".
Proof. destruct a; cbn; [tauto | discriminate]. Qed.

(** Splitting the single-space join of words gives the words back. *)
Lemma split_from_join (ts : list string) :
  Forall is_word ts ->
  forall word : string,
    split_from (join " " ts) word
    = match ts with
      | [] => match word with EmptyString => [] | _ => [word] end
      | t :: ts' => (word ++ t) :: ts'
      end.
Proof.
  unfold join. induction ts as [| t ts IH]; intros Hts word; [reflexivity |].
  inversion Hts as [| ? ? [Hne Ht] Hts']; subst.
  destruct ts as [| t2 ts].
  - cbn [String.concat]. rewrite <- (append_empty_r t) at 1.
    rewrite split_from_app_word by assumption. cbn [split_from].
    pose proof (append_nonempty_r word t Hne).
    now destruct (word ++ t).
  - change (String.concat " " (t :: t2 :: ts))
      with (t ++ String " " (String.concat " " (t2 :: ts))).
    rewrite split_from_app_word by assumption.
    cbn [split_from]. change (isspace " ") with true. cbv iota.
    pose proof (append_nonempty_r word t Hne).
    rewrite (IH Hts' ""). cbn [append].
    now destruct (word ++ t).
Qed.

Lemma split_clean_text (text : string) :
  split (Chunking.clean_text text) = split text.
Proof.
  unfold Chunking.clean_text, split at 1.
  pose proof (split_from_words text "" eq_refl) as Hw. fold (split text) in Hw.
  rewrite split_from_join by assumption.
  now destruct (split text).
Qed.

Lemma concat_split_from (s : string) :
  forall word : string,
    String.concat "" (split_from s word) = word ++ without_whitespace s.
Proof.
  induction s as [| c s IH]; intros word; cbn [split_from without_whitespace].
  - destruct word; [reflexivity | cbn [String.concat]; now rewrite append_empty_r].
  - destruct (isspace c).
    + destruct word as [| a w]; [apply IH |].
      now rewrite concat_empty_cons, IH.
    + rewrite IH, append_assoc. reflexivity.
Qed.

Lemma without_whitespace_app (a b : string) :
  without_whitespace (a ++ b) = without_whitespace a ++ without_whitespace b.
Proof.
  induction a as [| c a IH]; cbn [append without_whitespace]; [reflexivity |].
  destruct (isspace c); cbn [append]; now rewrite IH.
Qed.

Lemma without_whitespace_word (t : string) :
  all_chars not_space t = true -> without_whitespace t = t.
Proof.
  induction t as [| c t IH]; cbn [all_chars without_whitespace]; [reflexivity |].
  intros H. apply andb_prop in H. destruct H as [Hc Ht].
  unfold not_space in Hc. apply negb_true_iff in Hc. now rewrite Hc, IH.
Qed.

Lemma without_whitespace_join (ts : list string) :
  Forall is_word ts ->
  without_whitespace (join " " ts) = String.concat "" ts.
Proof.
  unfold join. induction ts as [| t ts IH]; intros Hts; [reflexivity |].
  inversion Hts as [| ? ? [Hne Ht] Hts']; subst.
  destruct ts as [| t2 ts].
  - cbn [String.concat]. now apply without_whitespace_word.
  - change (String.concat " " (t :: t2 :: ts))
      with (t ++ String " " (String.concat " " (t2 :: ts))).
    rewrite without_whitespace_app, without_whitespace_word by assumption.
    cbn [without_whitespace]. change (isspace " ") with true. cbv iota.
    rewrite (IH Hts'). symmetry. apply concat_empty_cons.
Qed.

Lemma single_spaced_from_word (t : string) :
  is_word t ->
  forall (after_space : bool) (rest : string),
    single_spaced_from after_space (t ++ rest) = single_spaced_from false rest.
Proof.
  intros [Hne Ht]. induction t as [| c t IH]; [contradiction |].
  intros after_space rest. cbn [all_chars] in Ht.
  apply andb_prop in Ht. destruct Ht as [Hc Ht].
  unfold not_space in Hc. apply negb_true_iff in Hc.
  cbn [append single_spaced_from]. rewrite Hc.
  destruct t as [| c' t']; [reflexivity |].
  apply IH; [discriminate | exact Ht].
Qed.

Lemma single_spaced_join (ts : list string) :
  Forall is_word ts -> ts <> [] ->
  forall after_space : bool,
    single_spaced_from after_space (join " " ts) = true.
Proof.
  unfold join. induction ts as [| t ts IH]; intros Hts Hne after_space; [contradiction |].
  inversion Hts as [| ? ? Hw Hts']; subst.
  destruct ts as [| t2 ts].
  - cbn [String.concat]. rewrite <- (append_empty_r t).
    now rewrite single_spaced_from_word.
  - change (String.concat " " (t :: t2 :: ts))
      with (t ++ String " " (String.concat " " (t2 :: ts))).
    rewrite single_spaced_from_word by assumption.
    cbn [single_spaced_from]. change (isspace " ") with true. cbv iota.
    rewrite (IH Hts') by discriminate. reflexivity.
Qed.

End WhitespaceProofs.

Lemma split_from_all_space (s : string) :
  all_chars isspace s = true -> split_from s "" = [].
Proof.
  induction s as [| c s IH]; cbn [all_chars split_from]; [reflexivity |].
  intros H. apply andb_prop in H. destruct H as [Hc Hs]. now rewrite Hc, IH.
Qed.

Lemma without_whitespace_empty (s : string) :
  without_whitespace s = "" -> all_chars isspace s = true.
Proof.
  induction s as [| c s IH]; cbn [all_chars without_whitespace]; [reflexivity |].
  destruct (isspace c); [exact IH | discriminate].
Qed.

(** X1. [clean_text] is idempotent: cleaning a cleaned text changes nothing. *)
Theorem clean_text_idempotent (text : string) :
  Chunking.clean_text (Chunking.clean_text text) = Chunking.clean_text text.
Proof.
  unfold Chunking.clean_text at 1. now rewrite split_clean_text.
Qed.

(** X2. The result of [clean_text] is single-spaced: its only whitespace is
    the space character, which never comes first, last, or twice in a row. *)
Theorem clean_text_single_spaced (text : string) :
  single_spaced (Chunking.clean_text text) = true.
Proof.
  unfold Chunking.clean_text.
  pose proof (split_from_words text "" eq_refl) as Hw. fold (split text) in Hw.
  destruct (split text) as [| t ts] eqn:E; [reflexivity |].
  pose proof (single_spaced_join (t :: ts) Hw ltac:(discriminate) true) as H.
  unfold single_spaced. now destruct (join " " (t :: ts)).
Qed.

(** X3. [clean_text] changes whitespace only: the text without its
    whitespace, and its list of words, are the same before and after. *)
Theorem clean_text_keeps_words (text : string) :
  without_whitespace (Chunking.clean_text text) = without_whitespace text
  /\ split (Chunking.clean_text text) = split text.
Proof.
  split; [| apply split_clean_text].
  unfold Chunking.clean_text.
  pose proof (split_from_words text "" eq_refl) as Hw. fold (split text) in Hw.
  rewrite without_whitespace_join by assumption.
  unfold split. now rewrite concat_split_from.
Qed.

(** X4. [clean_text] returns the empty string exactly on the texts whose
    [strip()] is empty, the ones [process_pdf] gives up on. *)
Theorem clean_text_empty_iff (text : string) :
  Chunking.clean_text text = "" <-> strip text = "".
Proof.
  rewrite strip_empty_iff. split.
  - intros H. apply without_whitespace_empty.
    rewrite <- (proj1 (clean_text_keeps_words text)), H. reflexivity.
  - intros H. unfold Chunking.clean_text, split.
    now rewrite split_from_all_space.
Qed.

(* ================================================================= *)
(** * More on the chunker *)

Lemma str_slice_from_0 (s : string) : str_slice s (Some 0) None = s.
Proof.
  unfold str_slice. rewrite list_slice_from by lia. cbn [Z.to_nat skipn].
  apply string_of_list_ascii_of_string.
Qed.

Lemma reassemble_0 (chunks : list string) :
  Chunking.reassemble 0 chunks = String.concat "" chunks.
Proof.
  destruct chunks as [| c rest]; [reflexivity |].
  cbn [Chunking.reassemble]. rewrite concat_empty_cons. f_equal. f_equal.
  rewrite <- (map_id rest) at 2. apply map_ext. intros c'. apply str_slice_from_0.
Qed.

(** X5. With a positive [chunk_size] and any smaller [overlap], zero and
    negative ones included, [chunk_pdf_text] returns
    [ceil(len(text) / step)] chunks for [step = chunk_size - overlap], none
    of them empty and none longer than [chunk_size]. *)
Theorem chunk_pdf_text_count (pdf_text : string) (chunk_size overlap : Z) :
  0 < chunk_size -> overlap < chunk_size ->
  exists chunks : list string,
    Chunking.chunk_pdf_text pdf_text chunk_size overlap = Returned chunks
    /\ Z.of_nat (List.length chunks)
       = (len pdf_text + (chunk_size - overlap) - 1) / (chunk_size - overlap)
    /\ Forall (fun c => 1 <= len c <= chunk_size) chunks.
Proof.
  intros Hc Ho. eexists. split; [apply chunk_pdf_text_spec; assumption |].
  assert (Hs : 0 < chunk_size - overlap) by lia. split.
  - rewrite length_map, length_seq. unfold Chunking.n_windows.
    apply Z2Nat.id. apply Z.div_pos; [unfold len |]; lia.
  - rewrite Forall_forall. intros c Hin. apply in_map_iff in Hin.
    destruct Hin as (k & <- & Hk). apply in_seq in Hk.
    pose proof (n_windows_inside (len pdf_text) (chunk_size - overlap) k Hs
                  ltac:(lia)) as Hin.
    rewrite len_window by lia. lia.
Qed.

Lemma chunk_pdf_text_count_witness :
  exists chunks : list string,
    Chunking.chunk_pdf_text "abcdefghij" 4 (-1) = Returned chunks
    /\ Z.of_nat (List.length chunks) = (len "abcdefghij" + (4 - -1) - 1) / (4 - -1)
    /\ Forall (fun c => 1 <= len c <= 4) chunks.
Proof.
  apply (chunk_pdf_text_count "abcdefghij" 4 (-1)); lia.
Defined.

(** X6. With [overlap = 0] the chunks partition the text: concatenated as
    they are, they give the text back. *)
Theorem chunk_pdf_text_partition (pdf_text : string) (chunk_size : Z) :
  0 < chunk_size ->
  exists chunks : list string,
    Chunking.chunk_pdf_text pdf_text chunk_size 0 = Returned chunks
    /\ String.concat "" chunks = pdf_text.
Proof.
  intros Hc. eexists. split; [apply chunk_pdf_text_spec; assumption |].
  rewrite <- reassemble_0. apply windows_reassemble. lia.
Qed.

Lemma chunk_pdf_text_partition_witness :
  exists chunks : list string,
    Chunking.chunk_pdf_text "abcdefghij" 4 0 = Returned chunks
    /\ String.concat "" chunks = "abcdefghij".
Proof.
  apply (chunk_pdf_text_partition "abcdefghij" 4). lia.
Defined.

(* ================================================================= *)
(** * The PDF processor *)

Section ProcessorProofs.
Import PDFProcessor.

Lemma extract_loop_acc (items : list (Z * page)) :
  forall out : list string,
    extract_loop items out = (out ++ extract_loop items [])%list.
Proof.
  induction items as [| [idx p] items IH]; intros out; cbn [extract_loop].
  - now rewrite app_nil_r.
  - destruct p as [e | extracted]; [apply IH |].
    destruct (strip _); [apply IH |].
    rewrite IH, (IH ([] ++ _)%list), app_assoc. reflexivity.
Qed.

Lemma extract_loop_blank (items : list (Z * page)) :
  Forall (fun ip => strip (page_text (snd ip)) = "") items ->
  extract_loop items [] = [].
Proof.
  induction items as [| [idx p] items IH]; intros H; [reflexivity |].
  inversion H as [| ? ? Hp Hrest]; subst. cbn [extract_loop].
  destruct p as [e | [t |]]; cbn [snd page_text] in Hp; [now apply IH | |].
  - rewrite Hp. now apply IH.
  - cbn [strip lstrip rstrip]. now apply IH.
Qed.

Lemma page_block_not_blank (idx : Z) (text : string) :
  all_chars isspace (page_block idx text) = false.
Proof. reflexivity. Qed.

Lemma extract_loop_blocks (items : list (Z * page)) :
  Forall (fun b => all_chars isspace b = false) (extract_loop items []).
Proof.
  induction items as [| [idx p] items IH]; cbn [extract_loop]; [constructor |].
  destruct p as [e | extracted]; [exact IH |].
  destruct (strip _); [exact IH |].
  rewrite extract_loop_acc. constructor; [apply page_block_not_blank | exact IH].
Qed.

Lemma extract_loop_nonblank (items : list (Z * page)) :
  Exists (fun ip => strip (page_text (snd ip)) <> "") items ->
  extract_loop items [] <> [].
Proof.
  induction items as [| [idx p] items IH]; intros H; inversion H as [? ? Hp | ? ? Hrest]; subst.
  - cbn [extract_loop]. destruct p as [e | [t |]]; cbn [snd page_text] in Hp;
      try (exfalso; apply Hp; reflexivity).
    destruct (strip t); [contradiction |].
    rewrite extract_loop_acc. discriminate.
  - cbn [extract_loop]. specialize (IH Hrest).
    destruct p as [e | extracted]; [exact IH |].
    destruct (strip _); [exact IH |].
    rewrite extract_loop_acc. discriminate.
Qed.

Lemma snd_enumerate {A} (l : list A) (i : Z) : map snd (enumerate l i) = l.
Proof.
  revert i. induction l as [| x l IH]; intros i; cbn [enumerate map snd];
    [reflexivity | now rewrite IH].
Qed.

Lemma Forall_enumerate {A} (P : A -> Prop) (l : list A) (i : Z) :
  Forall P l -> Forall (fun ip => P (snd ip)) (enumerate l i).
Proof.
  intros H. revert i. induction H as [| x l Hx Hl IH]; intros i; cbn [enumerate];
    constructor; [exact Hx | apply IH].
Qed.

Lemma Exists_enumerate {A} (P : A -> Prop) (l : list A) (i : Z) :
  Exists P l -> Exists (fun ip => P (snd ip)) (enumerate l i).
Proof.
  intros H. revert i. induction H as [x l Hx | x l Hl IH]; intros i; cbn [enumerate];
    [now left | right; apply IH].
Qed.

(** The extracted text is blank exactly when no page gave a non-blank text. *)
Lemma extract_text_blank (pages : list page) :
  Forall (fun p => strip (page_text p) = "") pages ->
  _extract_text (inr pages) = "".
Proof.
  intros H. unfold _extract_text.
  rewrite extract_loop_blank; [reflexivity |].
  now apply (Forall_enumerate (fun p => strip (page_text p) = "")).
Qed.

Lemma extract_text_nonblank (pages : list page) :
  Exists (fun p => strip (page_text p) <> "") pages ->
  strip (_extract_text (inr pages)) <> "".
Proof.
  intros H. unfold _extract_text.
  pose proof (extract_loop_nonblank (enumerate pages 0)
                (Exists_enumerate (fun p => strip (page_text p) <> "") pages 0 H))
    as Hne.
  pose proof (extract_loop_blocks (enumerate pages 0)) as Hb.
  destruct (extract_loop (enumerate pages 0) []) as [| b rest]; [contradiction |].
  inversion Hb as [| ? ? Hb0 _]; subst.
  rewrite strip_empty_iff. unfold join. rewrite concat_empty_cons, all_chars_app, Hb0.
  discriminate.
Qed.

End ProcessorProofs.

(** X7. A document that cannot be read, or none of whose pages yields a
    non-blank text, makes [process_pdf] return the empty list, whatever the
    chunk parameters: with [chunk_size <= overlap] too, nothing is raised. *)
Theorem process_pdf_blank_document (self : PDFProcessor.t) (file : PDFProcessor.reader) :
  (forall pages, file = inr pages ->
                 Forall (fun p => strip (PDFProcessor.page_text p) = "") pages) ->
  PDFProcessor.process_pdf self file = Returned [].
Proof.
  intros H. unfold PDFProcessor.process_pdf.
  destruct file as [e | pages]; [reflexivity |].
  now rewrite (extract_text_blank pages (H pages eq_refl)).
Qed.

Lemma process_pdf_blank_document_witness :
  PDFProcessor.process_pdf (PDFProcessor.mkProcessor 10 100)
    (inr [inr None; inl (PyExc "PdfReadError" "bad page"); inr (Some "   ")])
  = Returned [].
Proof.
  apply process_pdf_blank_document. intros pages H. injection H as <-.
  repeat constructor.
Defined.

(** X8. As soon as one page yields a non-blank text, [process_pdf] with
    [chunk_size <= overlap] raises the chunker's [ValueError]. *)
Theorem process_pdf_invalid_configuration
        (self : PDFProcessor.t) (pages : list PDFProcessor.page) :
  Exists (fun p => strip (PDFProcessor.page_text p) <> "") pages ->
  PDFProcessor.chunk_size self <= PDFProcessor.overlap self ->
  PDFProcessor.process_pdf self (inr pages)
  = Raised (ValueError "chunk_size must be greater than overlap").
Proof.
  intros Hp Hc. unfold PDFProcessor.process_pdf.
  pose proof (extract_text_nonblank pages Hp) as Hne.
  destruct (strip (PDFProcessor._extract_text (inr pages))); [contradiction |].
  unfold Chunking.chunk_pdf_text, Chunking.chunk_pdf_text_fuel.
  destruct (Z.leb_spec (PDFProcessor.chunk_size self) (PDFProcessor.overlap self));
    [reflexivity | lia].
Qed.

Lemma process_pdf_invalid_configuration_witness :
  PDFProcessor.process_pdf (PDFProcessor.mkProcessor 10 100)
    (inr [inr None; inr (Some "some text")])
  = Raised (ValueError "chunk_size must be greater than overlap").
Proof.
  apply (process_pdf_invalid_configuration (PDFProcessor.mkProcessor 10 100)
           [inr None; inr (Some "some text")]).
  - right. left. cbn. discriminate.
  - cbn. lia.
Defined.

(** X9. With a [chunk_size] of 50 or less (positive, above [overlap])
    [process_pdf] returns the empty list for every document: no chunk can
    have more than 50 characters left after [strip()]. *)
Theorem process_pdf_small_chunk_size
        (self : PDFProcessor.t) (file : PDFProcessor.reader) :
  0 < PDFProcessor.chunk_size self <= 50 ->
  PDFProcessor.overlap self < PDFProcessor.chunk_size self ->
  PDFProcessor.process_pdf self file = Returned [].
Proof.
  intros Hc Ho. unfold PDFProcessor.process_pdf.
  destruct (strip (PDFProcessor._extract_text file)); [reflexivity |].
  rewrite chunk_pdf_text_spec by assumption. cbn [bind].
  rewrite filter_none; [reflexivity |].
  intros c Hin. apply in_map_iff in Hin. destruct Hin as (k & <- & Hk).
  apply in_seq in Hk.
  set (cleaned := Chunking.clean_text (PDFProcessor._extract_text file)) in *.
  pose proof (n_windows_inside (len cleaned)
                (PDFProcessor.chunk_size self - PDFProcessor.overlap self) k
                ltac:(lia) ltac:(lia)) as Hin.
  pose proof (len_strip_le (Chunking.window cleaned (PDFProcessor.chunk_size self)
                              (PDFProcessor.overlap self) k)) as Hs.
  rewrite len_window in Hs by lia.
  apply Z.ltb_ge. lia.
Qed.

Lemma process_pdf_small_chunk_size_witness :
  PDFProcessor.process_pdf (PDFProcessor.mkProcessor 50 5)
    (inr [inr (Some "a page whose text is long enough to fill more than one chunk of fifty characters")])
  = Returned [].
Proof.
  apply process_pdf_small_chunk_size; cbn; lia.
Defined.

(* ================================================================= *)
(** * More on the vector store *)

Section StoreMoreProofs.
Import VectorStore.

Lemma dict_get_set_same (d : dict) (k : string) (v : entry) :
  dict_get (dict_set d k v) k = Some v.
Proof.
  induction d as [| [k' v'] d IH]; cbn [dict_set dict_get].
  - now rewrite String.eqb_refl.
  - destruct (String.eqb k k') eqn:E; cbn [dict_get]; rewrite E; [reflexivity | exact IH].
Qed.

Lemma dict_get_set_other (d : dict) (k k' : string) (v : entry) :
  k' <> k -> dict_get (dict_set d k v) k' = dict_get d k'.
Proof.
  intros Hne. induction d as [| [k0 v0] d IH]; cbn [dict_set dict_get].
  - apply String.eqb_neq in Hne. now rewrite Hne.
  - destruct (String.eqb_spec k k0) as [-> | Hk]; cbn [dict_get].
    + apply String.eqb_neq in Hne. now rewrite Hne.
    + now rewrite IH.
Qed.

Lemma dict_keys_set_present (d : dict) (k : string) (v : entry) :
  In k (dict_keys d) -> dict_keys (dict_set d k v) = dict_keys d.
Proof.
  induction d as [| [k' v'] d IH]; cbn [dict_keys map fst In dict_set]; [contradiction |].
  intros Hin. destruct (String.eqb_spec k k') as [-> | Hne]; cbn [map fst].
  - reflexivity.
  - f_equal. apply IH. destruct Hin as [Heq | Hin]; [congruence | exact Hin].
Qed.

Lemma dict_keys_set_absent (d : dict) (k : string) (v : entry) :
  ~ In k (dict_keys d) -> dict_keys (dict_set d k v) = (dict_keys d ++ [k])%list.
Proof.
  intros Hn. rewrite dict_set_fresh by assumption.
  unfold dict_keys. now rewrite map_app.
Qed.

Lemma dict_keys_filter (P : string -> bool) (d : dict) :
  dict_keys (filter (fun kv => P (fst kv)) d) = filter P (dict_keys d).
Proof.
  induction d as [| [k v] d IH]; [reflexivity |].
  cbn [filter dict_keys map fst]. destruct (P k); cbn [map fst]; fold (dict_keys d);
    unfold dict_keys in IH |- *; now rewrite IH.
Qed.

Lemma dict_get_filter_keep (P : string -> bool) (d : dict) (k : string) :
  P k = true -> dict_get (filter (fun kv => P (fst kv)) d) k = dict_get d k.
Proof.
  intros HP. induction d as [| [k' v'] d IH]; [reflexivity |].
  cbn [filter fst dict_get]. destruct (String.eqb_spec k k') as [<- | Hne].
  - rewrite HP. cbn [dict_get]. now rewrite String.eqb_refl.
  - destruct (P k'); cbn [dict_get]; [| exact IH].
    apply String.eqb_neq in Hne. now rewrite Hne.
Qed.

Lemma metadata_not_truthy (m : metadata) :
  metadata_truthy m = false -> m = empty_metadata.
Proof. destruct m as [[?|] [?|] [?|]]; cbn; intros H; try discriminate; reflexivity. Qed.

End StoreMoreProofs.

(** X10. [add_embedding] then a lookup: the key holds the vector and the
    metadata just given ([{}] when none was), every other key holds what it
    held before, and the key list is unchanged when the key was present
    (the entry is overwritten in place) and one longer, the key last,
    otherwise. *)
Theorem add_embedding_lookup (self : VectorStore.t) (key : string)
        (vec : list Float64.float) (md : option VectorStore.metadata) :
  VectorStore.get_embedding_data (VectorStore.add_embedding self key vec md) key
  = Some (VectorStore.mkEntry vec
            (match md with Some m => m | None => VectorStore.empty_metadata end))
  /\ VectorStore.get_embedding_vector (VectorStore.add_embedding self key vec md) key
     = Some vec
  /\ (forall k' : string,
         k' <> key ->
         VectorStore.get_embedding_data (VectorStore.add_embedding self key vec md) k'
         = VectorStore.get_embedding_data self k')
  /\ (In key (VectorStore.get_all_embeddings self) ->
      VectorStore.get_all_embeddings (VectorStore.add_embedding self key vec md)
      = VectorStore.get_all_embeddings self)
  /\ (~ In key (VectorStore.get_all_embeddings self) ->
      VectorStore.get_all_embeddings (VectorStore.add_embedding self key vec md)
      = (VectorStore.get_all_embeddings self ++ [key])%list).
Proof.
  unfold VectorStore.get_embedding_data, VectorStore.get_embedding_vector,
    VectorStore.get_all_embeddings, VectorStore.add_embedding,
    VectorStore.save_embeddings.
  cbn [VectorStore.embeddings].
  assert (Hmd : match md with
                | Some m => if VectorStore.metadata_truthy m then m
                            else VectorStore.empty_metadata
                | None => VectorStore.empty_metadata
                end
                = match md with Some m => m | None => VectorStore.empty_metadata end).
  { destruct md as [m |]; [| reflexivity].
    destruct (VectorStore.metadata_truthy m) eqn:E; [reflexivity |].
    symmetry. now apply metadata_not_truthy. }
  rewrite Hmd. repeat split.
  - apply dict_get_set_same.
  - now rewrite dict_get_set_same.
  - intros k' Hne. now apply dict_get_set_other.
  - apply dict_keys_set_present.
  - apply dict_keys_set_absent.
Qed.

(** X11. [remove_embeddings_by_prefix] never raises and removes all and
    only the keys that start with the prefix: those are absent afterwards,
    every other key holds what it held, and the remaining keys keep their
    order. *)
Theorem remove_embeddings_by_prefix_all_and_only (self : VectorStore.t) (prefix : string) :
  exists self' : VectorStore.t,
    VectorStore.remove_embeddings_by_prefix self prefix = Returned self'
    /\ VectorStore.get_all_embeddings self'
       = filter (fun k => negb (startswith k prefix)) (VectorStore.get_all_embeddings self)
    /\ (forall k : string,
           startswith k prefix = true -> VectorStore.get_embedding_data self' k = None)
    /\ (forall k : string,
           startswith k prefix = false ->
           VectorStore.get_embedding_data self' k = VectorStore.get_embedding_data self k).
Proof.
  eexists. split; [apply remove_embeddings_by_prefix_spec |].
  unfold VectorStore.get_all_embeddings, VectorStore.get_embedding_data.
  cbn [VectorStore.embeddings]. repeat split.
  - apply (dict_keys_filter (fun k => negb (startswith k prefix))).
  - intros k Hk. now apply (dict_get_filter_out (fun k => startswith k prefix)).
  - intros k Hk. apply (dict_get_filter_keep (fun k => negb (startswith k prefix))).
    now rewrite Hk.
Qed.

(** X12. Removing by the empty prefix, which every key starts with, is
    [clear_embeddings]. *)
Theorem remove_embeddings_by_empty_prefix (self : VectorStore.t) :
  VectorStore.remove_embeddings_by_prefix self ""
  = Returned (VectorStore.clear_embeddings self).
Proof.
  rewrite remove_embeddings_by_prefix_spec.
  unfold VectorStore.clear_embeddings, VectorStore.save_embeddings.
  rewrite filter_none; [reflexivity |].
  intros kv _. unfold startswith. now destruct (fst kv).
Qed.

Lemma NoDup_dict_set (d : VectorStore.dict) (k : string) (v : VectorStore.entry) :
  NoDup (VectorStore.dict_keys d) ->
  NoDup (VectorStore.dict_keys (VectorStore.dict_set d k v)).
Proof.
  intros Hd. destruct (in_dec string_dec k (VectorStore.dict_keys d)) as [Hin | Hn].
  - now rewrite dict_keys_set_present.
  - rewrite dict_keys_set_absent by assumption.
    apply NoDup_app; repeat split; try assumption.
    + repeat constructor. intros [].
    + intros x Hx [<- | []]. contradiction.
Qed.

(** X13. The keys of the store stay pairwise distinct under every
    operation that changes it: [add_embedding],
    [remove_embeddings_by_prefix], [clear_embeddings] and the ingestion
    [store_pdf_embeddings]. *)
Theorem store_keys_stay_unique (genai : EmbeddingService.embed_api)
        (self : EmbeddingService.t) :
  NoDup (VectorStore.get_all_embeddings (EmbeddingService.vector_store self)) ->
  (forall key vec md,
      NoDup (VectorStore.get_all_embeddings
               (VectorStore.add_embedding (EmbeddingService.vector_store self)
                  key vec md)))
  /\ (forall prefix vs,
         VectorStore.remove_embeddings_by_prefix (EmbeddingService.vector_store self)
           prefix = Returned vs ->
         NoDup (VectorStore.get_all_embeddings vs))
  /\ NoDup (VectorStore.get_all_embeddings
              (VectorStore.clear_embeddings (EmbeddingService.vector_store self)))
  /\ (forall pdf_id chunks self',
         EmbeddingService.store_pdf_embeddings genai self pdf_id chunks = Returned self' ->
         NoDup (VectorStore.get_all_embeddings (EmbeddingService.vector_store self'))).
Proof.
  unfold VectorStore.get_all_embeddings. intros Hd. repeat split.
  - intros key vec md. unfold VectorStore.add_embedding, VectorStore.save_embeddings.
    cbn [VectorStore.embeddings]. now apply NoDup_dict_set.
  - intros prefix vs H. rewrite remove_embeddings_by_prefix_spec in H.
    injection H as <-. cbn [VectorStore.embeddings].
    rewrite (dict_keys_filter (fun k => negb (startswith k prefix))).
    now apply NoDup_filter.
  - constructor.
  - intros pdf_id chunks self' H. rewrite store_pdf_embeddings_spec in H.
    injection H as <-.
    cbn [EmbeddingService.with_store EmbeddingService.vector_store VectorStore.embeddings].
    unfold VectorStore.dict_keys. rewrite map_app.
    fold (VectorStore.dict_keys (EmbeddingService.document_records genai self pdf_id chunks)).
    rewrite document_records_keys.
    apply NoDup_app; repeat split.
    + change (NoDup (VectorStore.dict_keys
                       (filter (fun kv => negb (startswith (fst kv) (pdf_id ++ "_")))
                               (VectorStore.embeddings
                                  (EmbeddingService.vector_store self))))).
      rewrite (dict_keys_filter (fun k => negb (startswith k (pdf_id ++ "_")))).
      now apply NoDup_filter.
    + apply chunk_keys_NoDup.
    + intros k Hold Hnew.
      apply (keys_of_filtered (fun k => startswith k (pdf_id ++ "_"))) in Hold.
      apply in_map_iff in Hnew. destruct Hnew as (i & <- & _).
      now rewrite chunk_key_startswith in Hold.
Qed.

Lemma store_keys_stay_unique_witness :
  NoDup (VectorStore.get_all_embeddings
           (VectorStore.add_embedding
              (EmbeddingService.vector_store Samples.two_documents)
              "a_chunk_0" [Float64.one] None)).
Proof.
  apply (proj1 (store_keys_stay_unique Samples.genai Samples.two_documents
                  ltac:(cbn; repeat constructor; cbn; intuition discriminate))).
Defined.

(* ================================================================= *)
(** * More on retrieval and ingestion *)

Section RetrievalMoreProofs.
Import Float64 VectorStore EmbeddingService.

Lemma any_zeros (n : nat) : any (zeros n) = false.
Proof. induction n as [| n IH]; [reflexivity | exact IH]. Qed.

Lemma cosine_similarity_zero_l (self : EmbeddingService.t) (a b : ndarray) :
  any a = false -> _cosine_similarity self a b = Returned zero.
Proof. intros H. unfold _cosine_similarity. now rewrite H. Qed.

Lemma cosine_similarity_zero_r (self : EmbeddingService.t) (a b : ndarray) :
  any b = false -> _cosine_similarity self a b = Returned zero.
Proof. intros H. unfold _cosine_similarity. now rewrite H, orb_true_r. Qed.

Lemma scan_results (self : EmbeddingService.t) (q_vec : ndarray)
      (scope : option string) (keys : list string) :
  forall res : list result,
    scan self q_vec scope keys [] = Returned res ->
    Forall (result_of_store self q_vec) res.
Proof.
  induction keys as [| k keys IH]; intros res H; cbn [scan] in H.
  - injection H as <-. constructor.
  - destruct (pdf_id_truthy scope && negb (startswith k (scope_prefix scope)));
      [now apply IH |].
    destruct (get_embedding_data (vector_store self) k) as [data |] eqn:Hget;
      [| now apply IH].
    destruct (_cosine_similarity self q_vec (vector data)) as [sim | e |] eqn:Hsim;
      cbn [bind] in H; try discriminate.
    rewrite scan_acc in H.
    destruct (scan self q_vec scope keys []) as [res' | e |]; cbn [bind] in H;
      try discriminate.
    injection H as <-. constructor; [| now apply IH].
    exists data. cbn [key similarity text chunk_index pdf_id]. now repeat split.
Qed.

Lemma scan_out_of_scope (self : EmbeddingService.t) (q_vec : ndarray)
      (scope : option string) (keys : list string) :
  Forall (fun k => pdf_id_truthy scope && negb (startswith k (scope_prefix scope)) = true)
         keys ->
  forall acc, scan self q_vec scope keys acc = Returned acc.
Proof.
  induction 1 as [| k keys Hk Hkeys IH]; intros acc; cbn [scan]; [reflexivity |].
  rewrite Hk. apply IH.
Qed.

Lemma sort_desc_constant {A} (sort_key : A -> float) (l : list A) :
  Forall (fun x => sort_key x = zero) l -> sort_desc sort_key l = l.
Proof.
  induction 1 as [| x l Hx Hl IH]; cbn [sort_desc fold_right]; [reflexivity |].
  fold (sort_desc sort_key l). rewrite IH.
  destruct l as [| y l']; [reflexivity |]. cbn [insert_desc].
  inversion Hl; subst. now rewrite Hx, H1.
Qed.

Lemma find_similar_chunks_unfold (genai : embed_api) (self : EmbeddingService.t)
      (query : string) (scope : option string) (top_k : Z)
      (results : list result) :
  find_similar_chunks genai self query scope top_k = Returned results ->
  exists cands : list result,
    scan self (generate_query_embedding genai self query) scope
         (get_all_embeddings (vector_store self)) [] = Returned cands
    /\ results = list_slice (sort_desc similarity cands) None (Some top_k).
Proof.
  unfold find_similar_chunks. intros H.
  destruct (scan _ _ _ _ _) as [cands | e |]; cbn [bind] in H; try discriminate.
  injection H as <-. now exists cands.
Qed.

Lemma list_slice_In {X} (l : list X) (a b : option Z) (x : X) :
  In x (list_slice l a b) -> In x l.
Proof.
  unfold list_slice. intros H. apply firstn_In in H.
  revert H. generalize (Z.to_nat match a with
                                  | Some i => adjust_index (Z.of_nat (List.length l)) i
                                  | None => 0
                                  end) as n.
  intros n. revert l. induction n as [| n IH]; intros [| y l] H; cbn in *;
    try contradiction; auto.
Qed.

End RetrievalMoreProofs.

Lemma format_context_none_above (chunks : list EmbeddingService.result) :
  Forall (fun c => Float64.gtb (EmbeddingService.similarity c) RAGService.threshold = false)
         chunks ->
  RAGService._format_context chunks = "".
Proof.
  intros Hall. unfold RAGService._format_context.
  destruct chunks as [| c0 chunks0]; [reflexivity |].
  rewrite format_loop_spec, app_nil_l, filter_none; [reflexivity |].
  intros [idx c] Hin. cbn [snd]. rewrite Forall_forall in Hall. apply Hall.
  apply (in_map snd) in Hin. now rewrite snd_enumerate in Hin.
Qed.

(** X14. Every result [find_similar_chunks] returns is read off the store:
    its key is a stored key, its similarity is the cosine similarity of the
    query embedding and the stored vector, and its text, chunk index and
    pdf id are the stored metadata, with [""], [0] and [""] for a field
    that is absent. *)
Theorem find_similar_chunks_results_stored
        (genai : EmbeddingService.embed_api) (self : EmbeddingService.t)
        (query : string) (scope : option string) (top_k : Z)
        (results : list EmbeddingService.result) :
  EmbeddingService.find_similar_chunks genai self query scope top_k = Returned results ->
  Forall (fun r =>
            In (EmbeddingService.key r)
               (VectorStore.get_all_embeddings (EmbeddingService.vector_store self))
            /\ EmbeddingService.result_of_store self
                 (EmbeddingService.generate_query_embedding genai self query) r)
         results.
Proof.
  intros H. apply find_similar_chunks_unfold in H. destruct H as (cands & Hscan & ->).
  pose proof (scan_results _ _ _ _ _ Hscan) as Hres.
  pose proof (scan_keys_all _ _ _ _ Hscan) as Hkeys.
  rewrite Forall_forall in *. intros r Hr. apply list_slice_In in Hr.
  apply (Permutation_in _ (sort_desc_perm EmbeddingService.similarity cands)) in Hr.
  split; [| now apply Hres].
  apply (in_map EmbeddingService.key) in Hr. rewrite Hkeys in Hr.
  now apply filter_In in Hr.
Qed.

Lemma find_similar_chunks_results_stored_witness :
  Forall (fun r =>
            In (EmbeddingService.key r)
               (VectorStore.get_all_embeddings
                  (EmbeddingService.vector_store Samples.two_documents))
            /\ EmbeddingService.result_of_store Samples.two_documents
                 (EmbeddingService.generate_query_embedding Samples.genai
                    Samples.two_documents "q") r)
         [EmbeddingService.mkResult "a_chunk_0" Float64.one "alpha" 0 "a"].
Proof.
  apply (find_similar_chunks_results_stored Samples.genai Samples.two_documents
           "q" (Some "a") 1).
  vm_compute. reflexivity.
Defined.

(** X15. When the embedding call for the query fails, [find_similar_chunks]
    still returns, whatever the stored vectors: the query vector is all
    zeros, every similarity is exactly [0.0], the results are the first
    [top_k] records in scope in scan order, and the context assembled from
    them is empty. *)
Theorem find_similar_chunks_query_embedding_failure
        (genai : EmbeddingService.embed_api) (self : EmbeddingService.t)
        (query : string) (scope : option string) (top_k : Z) (e : exn) :
  0 <= top_k ->
  genai (EmbeddingService.embedding_model self) query "retrieval_query" = inl e ->
  exists results : list EmbeddingService.result,
    EmbeddingService.find_similar_chunks genai self query scope top_k = Returned results
    /\ map EmbeddingService.key results
       = firstn (Z.to_nat top_k)
           (filter (fun k => negb (EmbeddingService.pdf_id_truthy scope
                                   && negb (startswith k (EmbeddingService.scope_prefix scope))))
                   (VectorStore.get_all_embeddings (EmbeddingService.vector_store self)))
    /\ Forall (fun r => EmbeddingService.similarity r = Float64.zero) results
    /\ RAGService._format_context results = "".
Proof.
  intros Hk Hfail.
  assert (Hq : EmbeddingService.generate_query_embedding genai self query
               = Float64.zeros 768)
    by (unfold EmbeddingService.generate_query_embedding; now rewrite Hfail).
  destruct (scan_returns self (Float64.zeros 768) scope
              (VectorStore.get_all_embeddings (EmbeddingService.vector_store self)))
    as [cands Hscan].
  { intros k data _ _. exists Float64.zero.
    apply cosine_similarity_zero_l, any_zeros. }
  pose proof (scan_keys_all _ _ _ _ Hscan) as Hkeys.
  assert (Hzero : Forall (fun r => EmbeddingService.similarity r = Float64.zero) cands).
  { pose proof (scan_results _ _ _ _ _ Hscan) as Hres.
    rewrite Forall_forall in *. intros r Hr.
    destruct (Hres r Hr) as (data & _ & Hsim & _).
    rewrite cosine_similarity_zero_l in Hsim by apply any_zeros. congruence. }
  exists (firstn (Z.to_nat top_k) cands).
  assert (Hz' : Forall (fun r => EmbeddingService.similarity r = Float64.zero)
                       (firstn (Z.to_nat top_k) cands)).
  { rewrite Forall_forall in *. intros r Hr. apply Hzero. now apply firstn_In in Hr. }
  split; [| split; [| split]].
  - unfold EmbeddingService.find_similar_chunks. rewrite Hq, Hscan. cbn [bind].
    rewrite sort_desc_constant by assumption. now rewrite list_slice_upto.
  - now rewrite <- firstn_map, Hkeys.
  - exact Hz'.
  - apply format_context_none_above.
    rewrite Forall_forall in *. intros r Hr. now rewrite (Hz' r Hr).
Qed.

Lemma find_similar_chunks_query_embedding_failure_witness :
  exists results : list EmbeddingService.result,
    EmbeddingService.find_similar_chunks Samples.failing_genai Samples.two_documents
      "q" (Some "a") 1 = Returned results
    /\ map EmbeddingService.key results = ["a_chunk_0"]
    /\ Forall (fun r => EmbeddingService.similarity r = Float64.zero) results
    /\ RAGService._format_context results = "".
Proof.
  apply (find_similar_chunks_query_embedding_failure Samples.failing_genai
           Samples.two_documents "q" (Some "a") 1 (PyExc "DeadlineExceeded" "504"));
    [lia | reflexivity].
Defined.

(** X16. Ingesting a document again: what the store holds after a second
    [store_pdf_embeddings] for the same id is what the second call alone
    would have left.  The first ingestion leaves no trace, whatever its
    chunks were and whatever the embedding provider answered during it
    ([genai1]); the provider's answers during the second call ([genai2])
    need not agree with them. *)
Theorem store_pdf_embeddings_last_wins
        (genai1 genai2 : EmbeddingService.embed_api) (self self1 : EmbeddingService.t)
        (pdf_id : string) (chunks1 chunks2 : list string) :
  EmbeddingService.store_pdf_embeddings genai1 self pdf_id chunks1 = Returned self1 ->
  EmbeddingService.store_pdf_embeddings genai2 self1 pdf_id chunks2
  = EmbeddingService.store_pdf_embeddings genai2 self pdf_id chunks2.
Proof.
  intros H1. rewrite store_pdf_embeddings_spec in H1. injection H1 as <-.
  rewrite !store_pdf_embeddings_spec.
  unfold EmbeddingService.with_store.
  cbn [EmbeddingService.vector_store EmbeddingService.embedding_model
       EmbeddingService.np_dot VectorStore.storage_path VectorStore.embeddings].
  rewrite filter_app.
  rewrite (filter_none _ (EmbeddingService.document_records genai1 self pdf_id chunks1)).
  - rewrite app_nil_r.
    rewrite (filter_every _ (filter _ _)); [reflexivity |].
    intros kv Hin. now apply filter_In in Hin.
  - intros kv Hin. now rewrite (document_records_prefixed _ _ _ _ kv Hin).
Qed.

Lemma store_pdf_embeddings_last_wins_witness :
  EmbeddingService.store_pdf_embeddings Samples.genai
    (Samples.service_of
       [ ("b_chunk_0", Samples.entry_of [Float64.zero; Float64.one] "b" 0 "beta");
         ("a_chunk_0",
          Samples.entry_of [Float64.one; Float64.zero; Float64.zero] "a" 0 "new alpha") ])
    "a" ["newer"]
  = EmbeddingService.store_pdf_embeddings Samples.genai Samples.two_documents
      "a" ["newer"].
Proof.
  apply (store_pdf_embeddings_last_wins Samples.genai_3d Samples.genai
           Samples.two_documents _ "a" ["new alpha"] ["newer"]).
  reflexivity.
Defined.

Lemma stored_keys_after_ingestion
      (genai : EmbeddingService.embed_api) (self : EmbeddingService.t)
      (pdf_id : string) (chunks : list string) :
  filter (fun k => startswith k (pdf_id ++ "_"))
         (VectorStore.dict_keys
            (filter (fun kv => negb (startswith (fst kv) (pdf_id ++ "_")))
                    (VectorStore.embeddings (EmbeddingService.vector_store self))
             ++ EmbeddingService.document_records genai self pdf_id chunks)%list)
  = map (fun i : nat => EmbeddingService.chunk_key pdf_id (Z.of_nat i))
        (seq 0 (List.length chunks)).
Proof.
  unfold VectorStore.dict_keys. rewrite map_app, filter_app.
  rewrite filter_none.
  - rewrite app_nil_l, filter_every.
    + apply (document_records_keys genai pdf_id self chunks).
    + intros k Hin. apply in_map_iff in Hin. destruct Hin as (kv & <- & Hin).
      exact (document_records_prefixed _ _ _ _ kv Hin).
  - intros k Hin.
    exact (keys_of_filtered (fun k => startswith k (pdf_id ++ "_")) _ k Hin).
Qed.

Lemma stored_record_after_ingestion
      (genai : EmbeddingService.embed_api) (self : EmbeddingService.t)
      (pdf_id : string) (chunks : list string) (i : nat) (chunk : string) :
  nth_error chunks i = Some chunk ->
  VectorStore.dict_get
    (filter (fun kv => negb (startswith (fst kv) (pdf_id ++ "_")))
            (VectorStore.embeddings (EmbeddingService.vector_store self))
     ++ EmbeddingService.document_records genai self pdf_id chunks)%list
    (EmbeddingService.chunk_key pdf_id (Z.of_nat i))
  = Some (VectorStore.mkEntry (EmbeddingService.document_embedding genai self chunk)
            (VectorStore.mkMetadata (Some pdf_id) (Some (Z.of_nat i)) (Some chunk))).
Proof.
  intros Hnth. rewrite dict_get_app.
  rewrite (dict_get_filter_out (fun k => startswith k (pdf_id ++ "_")))
    by apply chunk_key_startswith.
  now apply document_records_get.
Qed.

(** X17. Ingestion then retrieval.  After [store_pdf_embeddings] under a
    non-empty id, every result of a query scoped to that id is one of the
    chunks just ingested: its key is ["{pdf_id}_chunk_{i}"], its text is the
    [i]-th chunk, its chunk index is [i] and its pdf id is the id; and with
    [top_k] at least the number of chunks there is one result per chunk. *)
Theorem ingest_then_retrieve
        (genai : EmbeddingService.embed_api) (self self' : EmbeddingService.t)
        (pdf_id : string) (chunks : list string)
        (query : string) (top_k : Z) (results : list EmbeddingService.result) :
  pdf_id <> "" ->
  0 <= top_k ->
  EmbeddingService.store_pdf_embeddings genai self pdf_id chunks = Returned self' ->
  EmbeddingService.find_similar_chunks genai self' query (Some pdf_id) top_k
  = Returned results ->
  Forall (fun r =>
            exists i : nat,
              nth_error chunks i = Some (EmbeddingService.text r)
              /\ EmbeddingService.key r = EmbeddingService.chunk_key pdf_id (Z.of_nat i)
              /\ EmbeddingService.chunk_index r = Z.of_nat i
              /\ EmbeddingService.pdf_id r = pdf_id)
         results
  /\ (Z.of_nat (List.length chunks) <= top_k ->
      Permutation (map EmbeddingService.key results)
                  (map (fun i : nat => EmbeddingService.chunk_key pdf_id (Z.of_nat i))
                       (seq 0 (List.length chunks)))).
Proof.
  intros Hid Hk Hstore Hfind.
  rewrite store_pdf_embeddings_spec in Hstore. injection Hstore as <-.
  apply find_similar_chunks_unfold in Hfind. destruct Hfind as (cands & Hscan & ->).
  pose proof (scan_results _ _ _ _ _ Hscan) as Hres.
  pose proof (scan_keys_all _ _ _ _ Hscan) as Hkeys.
  unfold VectorStore.get_all_embeddings in Hkeys.
  cbn [EmbeddingService.with_store EmbeddingService.vector_store VectorStore.embeddings
       EmbeddingService.pdf_id_truthy EmbeddingService.scope_prefix] in Hkeys.
  apply String.eqb_neq in Hid. rewrite Hid in Hkeys. cbn [negb andb] in Hkeys.
  rewrite (filter_ext _ (fun k => startswith k (pdf_id ++ "_"))) in Hkeys
    by (intros k; apply negb_involutive).
  rewrite stored_keys_after_ingestion in Hkeys.
  rewrite list_slice_upto by assumption. split.
  - rewrite Forall_forall in *. intros r Hr. apply firstn_In in Hr.
    apply (Permutation_in _ (sort_desc_perm EmbeddingService.similarity cands)) in Hr.
    destruct (Hres r Hr) as (data & Hget & _ & Ht & Hi & Hp).
    apply (in_map EmbeddingService.key) in Hr. rewrite Hkeys in Hr.
    apply in_map_iff in Hr. destruct Hr as (i & Hkey & Hi'). apply in_seq in Hi'.
    destruct (nth_error chunks i) as [chunk |] eqn:Hnth;
      [| apply nth_error_None in Hnth; lia].
    unfold VectorStore.get_embedding_data in Hget.
    cbn [EmbeddingService.with_store EmbeddingService.vector_store VectorStore.embeddings]
      in Hget.
    rewrite <- Hkey, (stored_record_after_ingestion _ _ _ _ _ _ Hnth) in Hget.
    injection Hget as <-. cbn in Ht, Hi, Hp.
    exists i. rewrite Ht, Hi, Hp, Hnth. now repeat split.
  - intros Hall.
    assert (Hlen : List.length cands = List.length chunks)
      by (rewrite <- (length_map EmbeddingService.key), Hkeys, length_map, length_seq;
          reflexivity).
    rewrite firstn_all2
      by (rewrite (Permutation_length (sort_desc_perm _ cands)); lia).
    rewrite <- Hkeys. apply Permutation_map, sort_desc_perm.
Qed.

Lemma ingest_then_retrieve_witness :
  Forall (fun r =>
            exists i : nat,
              nth_error ["first"; "second"] i = Some (EmbeddingService.text r)
              /\ EmbeddingService.key r = EmbeddingService.chunk_key "doc" (Z.of_nat i)
              /\ EmbeddingService.chunk_index r = Z.of_nat i
              /\ EmbeddingService.pdf_id r = "doc")
         [ EmbeddingService.mkResult "doc_chunk_0" Float64.one "first" 0 "doc";
           EmbeddingService.mkResult "doc_chunk_1" Float64.one "second" 1 "doc" ]
  /\ (Z.of_nat (List.length ["first"; "second"]) <= 5 ->
      Permutation
        (map EmbeddingService.key
             [ EmbeddingService.mkResult "doc_chunk_0" Float64.one "first" 0 "doc";
               EmbeddingService.mkResult "doc_chunk_1" Float64.one "second" 1 "doc" ])
        (map (fun i : nat => EmbeddingService.chunk_key "doc" (Z.of_nat i))
             (seq 0 (List.length ["first"; "second"])))).
Proof.
  apply (ingest_then_retrieve Samples.genai Samples.doc_and_doc_2
           (Samples.service_of
              [ ("doc_chunk_0", Samples.entry_of [Float64.one; Float64.zero] "doc" 0 "first");
                ("doc_chunk_1", Samples.entry_of [Float64.one; Float64.zero] "doc" 1 "second") ])
           "doc" ["first"; "second"] "q" 5).
  - discriminate.
  - lia.
  - reflexivity.
  - vm_compute. reflexivity.
Defined.

(** X18. A chunk whose embedding call failed is stored with the zero
    vector, and every query that returns it gives it the similarity
    exactly [0.0]. *)
Theorem failed_embedding_scores_zero
        (genai : EmbeddingService.embed_api) (self self' : EmbeddingService.t)
        (pdf_id : string) (chunks : list string) (i : nat) (chunk : string) (e : exn)
        (query : string) (scope : option string) (top_k : Z)
        (results : list EmbeddingService.result) (r : EmbeddingService.result) :
  EmbeddingService.store_pdf_embeddings genai self pdf_id chunks = Returned self' ->
  nth_error chunks i = Some chunk ->
  genai (EmbeddingService.embedding_model self) chunk "retrieval_document" = inl e ->
  EmbeddingService.find_similar_chunks genai self' query scope top_k = Returned results ->
  In r results ->
  EmbeddingService.key r = EmbeddingService.chunk_key pdf_id (Z.of_nat i) ->
  VectorStore.get_embedding_vector (EmbeddingService.vector_store self')
    (EmbeddingService.chunk_key pdf_id (Z.of_nat i)) = Some (Float64.zeros 768)
  /\ EmbeddingService.similarity r = Float64.zero.
Proof.
  intros Hstore Hnth Hfail Hfind Hr Hkey.
  rewrite store_pdf_embeddings_spec in Hstore. injection Hstore as <-.
  assert (Hget : VectorStore.dict_get
                   (VectorStore.embeddings
                      (EmbeddingService.vector_store
                         (EmbeddingService.with_store self
                            (VectorStore.mkStore
                               (VectorStore.storage_path (EmbeddingService.vector_store self))
                               (filter (fun kv => negb (startswith (fst kv) (pdf_id ++ "_")))
                                       (VectorStore.embeddings
                                          (EmbeddingService.vector_store self))
                                ++ EmbeddingService.document_records genai self pdf_id chunks)%list))))
                   (EmbeddingService.chunk_key pdf_id (Z.of_nat i))
                 = Some (VectorStore.mkEntry (Float64.zeros 768)
                           (VectorStore.mkMetadata (Some pdf_id) (Some (Z.of_nat i))
                              (Some chunk)))).
  { cbn [EmbeddingService.with_store EmbeddingService.vector_store VectorStore.embeddings].
    rewrite (stored_record_after_ingestion _ _ _ _ _ _ Hnth).
    unfold EmbeddingService.document_embedding. now rewrite Hfail. }
  split.
  - unfold VectorStore.get_embedding_vector. now rewrite Hget.
  - apply find_similar_chunks_unfold in Hfind. destruct Hfind as (cands & Hscan & ->).
    pose proof (scan_results _ _ _ _ _ Hscan) as Hres.
    apply list_slice_In in Hr.
    apply (Permutation_in _ (sort_desc_perm EmbeddingService.similarity cands)) in Hr.
    rewrite Forall_forall in Hres. destruct (Hres r Hr) as (data & Hd & Hsim & _).
    unfold VectorStore.get_embedding_data in Hd. rewrite Hkey, Hget in Hd.
    injection Hd as <-. cbn [VectorStore.vector] in Hsim.
    rewrite cosine_similarity_zero_r in Hsim by apply any_zeros. congruence.
Qed.

Lemma failed_embedding_scores_zero_witness :
  VectorStore.get_embedding_vector
    (EmbeddingService.vector_store
       (Samples.service_of
          [ ("doc_chunk_0",
             Samples.entry_of (Float64.zeros 768) "doc" 0 "first") ]))
    (EmbeddingService.chunk_key "doc" (Z.of_nat 0)) = Some (Float64.zeros 768)
  /\ EmbeddingService.similarity
       (EmbeddingService.mkResult "doc_chunk_0" Float64.zero "first" 0 "doc")
     = Float64.zero.
Proof.
  apply (failed_embedding_scores_zero Samples.query_only_genai Samples.doc_and_doc_2
           (Samples.service_of
              [ ("doc_chunk_0", Samples.entry_of (Float64.zeros 768) "doc" 0 "first") ])
           "doc" ["first"] 0 "first" (PyExc "DeadlineExceeded" "504")
           "q" (Some "doc") 3
           [EmbeddingService.mkResult "doc_chunk_0" Float64.zero "first" 0 "doc"]).
  - reflexivity.
  - reflexivity.
  - reflexivity.
  - vm_compute. reflexivity.
  - now left.
  - reflexivity.
Defined.

(** X19. After [clear_pdf_embeddings] of a non-empty id, a query scoped to
    that id returns the empty list, for every [top_k], and never raises. *)
Theorem clear_then_retrieve
        (genai : EmbeddingService.embed_api) (self self' : EmbeddingService.t)
        (pdf_id query : string) (top_k : Z) :
  pdf_id <> "" ->
  EmbeddingService.clear_pdf_embeddings self pdf_id = Returned self' ->
  EmbeddingService.find_similar_chunks genai self' query (Some pdf_id) top_k
  = Returned [].
Proof.
  intros Hid Hclear. unfold EmbeddingService.clear_pdf_embeddings in Hclear.
  rewrite remove_embeddings_by_prefix_spec in Hclear. cbn [bind] in Hclear.
  injection Hclear as <-. unfold EmbeddingService.find_similar_chunks.
  rewrite scan_out_of_scope.
  - cbn [bind EmbeddingService.sort_desc fold_right]. unfold list_slice.
    cbn [List.length skipn]. now rewrite firstn_nil.
  - unfold VectorStore.get_all_embeddings.
    cbn [EmbeddingService.with_store EmbeddingService.vector_store VectorStore.embeddings].
    rewrite Forall_forall. intros k Hin.
    apply (keys_of_filtered (fun k => startswith k (pdf_id ++ "_"))) in Hin.
    cbn [EmbeddingService.pdf_id_truthy EmbeddingService.scope_prefix].
    apply String.eqb_neq in Hid. now rewrite Hid, Hin.
Qed.

Lemma clear_then_retrieve_witness :
  EmbeddingService.find_similar_chunks Samples.genai
    (Samples.service_of
       [ ("b_chunk_0", Samples.entry_of [Float64.zero; Float64.one] "b" 0 "beta") ])
    "q" (Some "a") 3
  = Returned [].
Proof.
  apply (clear_then_retrieve Samples.genai Samples.two_documents _ "a" "q" 3).
  - discriminate.
  - reflexivity.
Defined.

(* ================================================================= *)
(** * Prompts and answers *)

Section PromptProofs.
Import GeminiClient.

Lemma list_slice_last {X} (l : list X) (n : Z) :
  0 < n ->
  list_slice l (Some (- n)) None = skipn (List.length l - Z.to_nat n) l.
Proof.
  intros Hn. unfold list_slice, adjust_index.
  destruct (Z.ltb_spec (- n) 0); [| lia].
  replace (Z.to_nat (Z.max 0 (- n + Z.of_nat (List.length l))))
    with (List.length l - Z.to_nat n)%nat by lia.
  apply firstn_all2. rewrite length_skipn. lia.
Qed.

(** The last five of a history do not depend on what came before them. *)
Lemma last_five_app {X} (older recent : list X) :
  (5 <= List.length recent)%nat ->
  list_slice (older ++ recent)%list (Some (-5)) None
  = list_slice recent (Some (-5)) None.
Proof.
  intros Hlen. change (-5) with (- (5)). rewrite !list_slice_last by lia.
  rewrite length_app, skipn_app.
  replace (skipn (List.length older + List.length recent - Z.to_nat 5) older)
    with (@nil X) by (symmetry; apply skipn_all2; lia).
  rewrite app_nil_l. f_equal. lia.
Qed.

Lemma concat_first_last (sep x y : string) (xs : list string) :
  exists mid : string,
    String.concat sep (x :: xs ++ [y]) = x ++ mid ++ sep ++ y.
Proof.
  revert x. induction xs as [| a xs IH]; intros x.
  - exists "". reflexivity.
  - destruct (IH a) as [mid Hmid]. exists (sep ++ a ++ mid).
    change (String.concat sep (x :: (a :: xs) ++ [y]))
      with (x ++ sep ++ String.concat sep (a :: xs ++ [y])).
    rewrite Hmid. now rewrite !append_assoc.
Qed.

Lemma drain_nonempty (it : response_iter) :
  Forall (fun f => f <> "") (fst (drain it)).
Proof.
  induction it as [| c rest IH | e]; cbn [drain fst]; try constructor.
  destruct (getattr_text c) as [e | txt]; cbn [fst]; [constructor |].
  destruct (String.eqb_spec txt "") as [_ | Hne]; [exact IH |].
  destruct (drain rest) as [fs r]. cbn [fst] in *. now constructor.
Qed.

End PromptProofs.

(** X20. Only the last five messages of the history reach the prompt: a
    history of five or more messages gives the same prompt whatever older
    messages come before it. *)
Theorem build_prompt_history_window
        (user_prompt context : string) (older recent : list GeminiClient.message) :
  (5 <= List.length recent)%nat ->
  GeminiClient._build_prompt user_prompt context (Some (older ++ recent)%list)
  = GeminiClient._build_prompt user_prompt context (Some recent).
Proof.
  intros Hlen. unfold GeminiClient._build_prompt.
  rewrite last_five_app by assumption.
  destruct recent as [| m recent]; [cbn in Hlen; lia |].
  destruct older as [| m' older]; reflexivity.
Qed.

Lemma build_prompt_history_window_witness :
  GeminiClient._build_prompt "q" "ctx"
    (Some ([GeminiClient.mkMessage (Some "user") (Some "old")]
           ++ repeat (GeminiClient.mkMessage (Some "assistant") (Some "new")) 5)%list)
  = GeminiClient._build_prompt "q" "ctx"
      (Some (repeat (GeminiClient.mkMessage (Some "assistant") (Some "new")) 5)).
Proof.
  apply build_prompt_history_window. cbn. lia.
Defined.

(** X21. Every prompt starts with the system instruction and ends with a
    newline, the question part and the answer cue; with an empty context
    and no history ([None] or the empty list) there is nothing in
    between. *)
Theorem build_prompt_shape
        (user_prompt context : string)
        (chat_history : option (list GeminiClient.message)) :
  exists mid : string,
    GeminiClient._build_prompt user_prompt context chat_history
    = GeminiClient.system_prompt ++ mid ++ GeminiClient.nl
      ++ GeminiClient.question_part user_prompt
    /\ (context = "" -> (chat_history = None \/ chat_history = Some []) -> mid = "").
Proof.
  unfold GeminiClient._build_prompt, join.
  destruct (String.eqb_spec context "") as [-> | Hctx].
  - destruct chat_history as [[| m h] |].
    + exists "". split; [reflexivity | reflexivity].
    + rewrite <- !app_assoc. cbn [app].
      destruct (concat_first_last GeminiClient.nl GeminiClient.system_prompt
                  (GeminiClient.question_part user_prompt)
                  (GeminiClient.history_header
                     :: map GeminiClient.render_message
                          (list_slice (m :: h) (Some (-5)) None)))
        as [mid Hmid].
      exists mid. split; [exact Hmid |]. intros _ [H | H]; discriminate.
    + exists "". split; reflexivity.
  - assert (Hmid : forall xs : list string,
               exists mid,
                 String.concat GeminiClient.nl
                   ((([GeminiClient.system_prompt] ++ [GeminiClient.context_part context])
                       ++ xs) ++ [GeminiClient.question_part user_prompt])%list
                 = GeminiClient.system_prompt ++ mid ++ GeminiClient.nl
                   ++ GeminiClient.question_part user_prompt).
    { intros xs. rewrite <- !app_assoc. cbn [app].
      apply (concat_first_last GeminiClient.nl GeminiClient.system_prompt
               (GeminiClient.question_part user_prompt)
               (GeminiClient.context_part context :: xs)). }
    destruct chat_history as [[| m h] |].
    + destruct (Hmid []) as [mid H]. rewrite app_nil_r in H.
      exists mid. split; [exact H | contradiction].
    + destruct (Hmid (GeminiClient.history_header
                        :: map GeminiClient.render_message
                             (list_slice (m :: h) (Some (-5)) None))) as [mid H].
      exists mid. split; [| contradiction].
      rewrite <- H. now rewrite <- !app_assoc.
    + destruct (Hmid []) as [mid H]. rewrite app_nil_r in H.
      exists mid. split; [exact H | contradiction].
Qed.

(** X22. The streaming generator never yields an empty fragment: empty
    texts of the provider are dropped, and the error fragment carries its
    marker. *)
Theorem stream_response_fragments_nonempty
        (model : GeminiClient.generate_api) (prompt context : string)
        (chat_history : option (list GeminiClient.message)) :
  Forall (fun f => f <> "")
         (GeminiClient.stream_response model prompt context chat_history).
Proof.
  unfold GeminiClient.stream_response.
  destruct (model _) as [e | it]; [repeat constructor; discriminate |].
  pose proof (drain_nonempty it) as H.
  destruct (GeminiClient.drain it) as [fs [e |]]; cbn [fst] in H; [| exact H].
  apply Forall_app. split; [exact H | repeat constructor; discriminate].
Qed.

(** X23. [generate_response] never returns the empty string: a response
    whose text is missing or blank becomes ["No response generated."], and
    a failure becomes the error message. *)
Theorem generate_response_nonempty
        (model : GeminiClient.generate_blocking_api) (prompt context : string)
        (chat_history : option (list GeminiClient.message)) :
  GeminiClient.generate_response model prompt context chat_history <> ""
  /\ (forall txt,
         model (GeminiClient._build_prompt prompt context chat_history)
         = inr (GeminiClient.ChunkText txt) ->
         strip txt = "" ->
         GeminiClient.generate_response model prompt context chat_history
         = "No response generated.").
Proof.
  unfold GeminiClient.generate_response. split.
  - destruct (model _) as [e | resp]; [discriminate |].
    destruct (GeminiClient.getattr_text resp) as [e | txt]; [discriminate |].
    destruct (strip txt); discriminate.
  - intros txt Hmodel Hstrip. rewrite Hmodel. cbn [GeminiClient.getattr_text].
    now rewrite Hstrip.
Qed.

(** X24. The two blocking answers differ in what they do with a retrieval
    error.  When retrieval returns, [generate_response_with_sources] gives
    the response of [get_response] together with the retrieved chunks, at
    most three, and the context assembled from them; when retrieval raises,
    [get_response] and [stream_response] raise the same exception at the
    call, while [generate_response_with_sources] returns an apology that
    quotes it, with no sources and an empty context. *)
Theorem generate_response_with_sources_spec
        (genai : EmbeddingService.embed_api)
        (model : GeminiClient.generate_blocking_api) (self : RAGService.t)
        (user_query pdf_id : string)
        (chat_history : option (list GeminiClient.message)) :
  (forall chunks : list EmbeddingService.result,
      EmbeddingService.find_similar_chunks genai (RAGService.embedding_service self)
        user_query (Some pdf_id) 3 = Returned chunks ->
      (List.length chunks <= 3)%nat
      /\ RAGService.get_response genai model self user_query pdf_id chat_history
         = Returned (GeminiClient.generate_response model user_query
                       (RAGService._format_context chunks) chat_history)
      /\ RAGService.generate_response_with_sources genai model self user_query pdf_id
           chat_history
         = RAGService.mkAnswer
             (GeminiClient.generate_response model user_query
                (RAGService._format_context chunks) chat_history)
             chunks (RAGService._format_context chunks))
  /\ (forall e : exn,
         EmbeddingService.find_similar_chunks genai (RAGService.embedding_service self)
           user_query (Some pdf_id) 3 = Raised e ->
         RAGService.get_response genai model self user_query pdf_id chat_history
         = Raised e
         /\ RAGService.stream_response genai self user_query pdf_id chat_history
            = Raised e
         /\ RAGService.generate_response_with_sources genai model self user_query pdf_id
              chat_history
            = RAGService.mkAnswer ("Sorry, I encountered an error: " ++ exc_str e) [] "").
Proof.
  unfold RAGService.get_response, RAGService.stream_response,
    RAGService.generate_response_with_sources, RAGService.retrieve_relevant_chunks.
  split.
  - intros chunks H. rewrite H. cbn [bind]. split; [| split; reflexivity].
    apply find_similar_chunks_unfold in H. destruct H as (cands & _ & ->).
    rewrite list_slice_upto by lia. rewrite length_firstn. lia.
  - intros e H. rewrite H. cbn [bind]. now repeat split.
Qed.

Lemma generate_response_with_sources_witness :
  RAGService.get_response Samples.genai_3d Samples.blocking_model
    (RAGService.mkRAG Samples.two_documents Samples.failing_model) "q" "a" None
  = Raised (ValueError "shapes (3,) and (2,) not aligned: 3 (dim 0) != 2 (dim 0)")
  /\ RAGService.stream_response Samples.genai_3d
       (RAGService.mkRAG Samples.two_documents Samples.failing_model) "q" "a" None
     = Raised (ValueError "shapes (3,) and (2,) not aligned: 3 (dim 0) != 2 (dim 0)")
  /\ RAGService.generate_response_with_sources Samples.genai_3d Samples.blocking_model
       (RAGService.mkRAG Samples.two_documents Samples.failing_model) "q" "a" None
     = RAGService.mkAnswer
         ("Sorry, I encountered an error: " ++ exc_str (ValueError "shapes (3,) and (2,) not aligned: 3 (dim 0) != 2 (dim 0)"))
         [] "".
Proof.
  apply (proj2 (generate_response_with_sources_spec Samples.genai_3d
                  Samples.blocking_model
                  (RAGService.mkRAG Samples.two_documents Samples.failing_model)
                  "q" "a" None)).
  vm_compute. reflexivity.
Defined.

(* ================================================================= *)
(** * Document ids *)

Section ReplaceProofs.

Lemma all_chars_impl (P Q : ascii -> bool) (s : string) :
  (forall c, P c = true -> Q c = true) ->
  all_chars P s = true -> all_chars Q s = true.
Proof.
  intros HPQ. induction s as [| c s IH]; cbn [all_chars]; [reflexivity |].
  intros H. apply andb_prop in H. destruct H as [Hc Hs].
  now rewrite (HPQ c Hc), IH.
Qed.

(** Replacing the one-character string [c] by [new]: what is left is made
    of the characters of [new] and the characters of [s] other than [c]. *)
Lemma all_chars_replace_char (P : ascii -> bool) (c : ascii) (s new : string) :
  all_chars P new = true ->
  all_chars (fun x => Ascii.eqb x c || P x) s = true ->
  all_chars P (replace s (String c "") new) = true.
Proof.
  intros Hnew. unfold replace. induction s as [| x s IH]; [reflexivity |].
  cbn [all_chars replace_from String.prefix String.length Nat.sub].
  intros H. apply andb_prop in H. destruct H as [Hx Hs].
  destruct (ascii_dec c x) as [<- | Hne].
  - replace (String.prefix "" s) with true by now destruct s.
    rewrite all_chars_app, Hnew. now apply IH.
  - cbn [all_chars]. rewrite IH by assumption.
    destruct (Ascii.eqb_spec x c) as [-> | _]; [contradiction |].
    cbn [orb] in Hx. now rewrite Hx.
Qed.

End ReplaceProofs.

(** X25. The document id derived from a file name never contains a space
    or a dot, whatever the name. *)
Theorem pdf_id_of_name_no_space_no_dot (name : string) :
  all_chars (fun c => negb (Ascii.eqb c " ") && negb (Ascii.eqb c "."))
            (App.pdf_id_of_name name) = true.
Proof.
  unfold App.pdf_id_of_name.
  apply all_chars_replace_char; [reflexivity |].
  apply (all_chars_impl (fun c => negb (Ascii.eqb c " "))).
  - intros c Hc. rewrite Hc. cbn [andb]. now destruct (Ascii.eqb c ".").
  - apply all_chars_replace_char; [reflexivity |].
    generalize (replace name ".pdf" "") as s.
    induction s as [| c s IH]; cbn [all_chars]; [reflexivity |].
    rewrite IH. now destruct (Ascii.eqb c " ").
Qed.

(** The ids of the C10 example come from ordinary file names, and distinct
    names can share an id. *)
Example pdf_id_of_name_samples :
  map App.pdf_id_of_name ["doc.pdf"; "doc 2.pdf"; "doc_2.pdf"; "doc.2.pdf"; "my report v1.2.pdf"]
  = ["doc"; "doc_2"; "doc_2"; "doc_2"; "my_report_v1_2"].
Proof. vm_compute. reflexivity. Qed.
